(** * oncall-exporter: a shallow embedding of [oncall-exporter.py]

    The exporter polls the on-call service over HTTP and republishes what it
    finds as Prometheus counters and gauges.  The embedding keeps the shape
    of the Python module:

    - [json] is what [resp.json()] hands back, and the handful of Python
      operations the module applies to it ([len], [x[k]], [k in x], [not x],
      [a + b], iteration) are total functions into an error type, so that a
      payload of an unexpected shape raises here exactly where it raises
      there;
    - the Prometheus registry is a record of counters and gauges, the two
      labelled gauges being finite maps keyed by the label values;
    - the upstream service is an oracle answering the n-th outgoing request;
    - the three updaters and the scheduler loop are written in a state and
      exception monad over the registry. *)

From Stdlib Require Import ZArith QArith Qcanon List String Bool Lia.
From stdpp Require Import base numbers gmap strings list.

Import ListNotations.
Local Open Scope string_scope.

(** ** Values returned by [resp.json()] *)

(** A decoded dict keeps its items in insertion order; its keys are
    pairwise distinct, as in any Python dict.  Numbers are exact rationals:
    the module only ever asks whether a number is zero.  A string is its
    sequence of characters, one [ascii] each. *)
#[warnings="-register-all"]
Inductive json : Type :=
| JNull
| JBool (b : bool)
| JNum (q : Qc)
| JStr (s : string)
| JArr (items : list json)
| JObj (fields : list (string * json)).

(** Exceptions the updaters can meet; all of them derive from [Exception]. *)
Inductive exn : Type :=
| TransportError          (* requests.get: connection refused, timeout, ... *)
| JSONDecodeError         (* resp.json() on a body that is not JSON *)
| KeyError (k : string)
| TypeError.

Inductive res (A : Type) : Type :=
| Ok (a : A)
| Err (e : exn).
Arguments Ok {A} a.
Arguments Err {A} e.

Definition res_bind {A B} (r : res A) (k : A -> res B) : res B :=
  match r with
  | Ok a => k a
  | Err e => Err e
  end.

Notation "'try!' x ':=' r 'in' k" := (res_bind r (fun x => k))
  (at level 10, x name, r at level 100, k at level 200,
   format "'[v' 'try!'  x  ':='  r  'in' '/' k ']'").

Module Py.

(** [d[k]] on a dict. *)
Fixpoint dict_get (k : string) (fields : list (string * json)) : option json :=
  match fields with
  | [] => None
  | (k', v) :: rest => if String.eqb k k' then Some v else dict_get k rest
  end.

(** [k in d] on a dict. *)
Definition dict_has (k : string) (fields : list (string * json)) : bool :=
  match dict_get k fields with
  | Some _ => true
  | None => false
  end.

(** [needle in hay] on two strings: substring search. *)
Fixpoint str_contains (needle hay : string) : bool :=
  String.prefix needle hay ||
  match hay with
  | EmptyString => false
  | String _ rest => str_contains needle rest
  end.

(** The characters of a string, each a one-character string. *)
Fixpoint str_chars (s : string) : list json :=
  match s with
  | EmptyString => []
  | String c rest => JStr (String c EmptyString) :: str_chars rest
  end.

(** [not x] is [negb (truthy x)]. *)
Definition truthy (v : json) : bool :=
  match v with
  | JNull => false
  | JBool b => b
  | JNum q => negb (bool_decide (q = 0%Qc))
  | JStr s => negb (String.eqb s "")
  | JArr items => negb (Nat.eqb (length items) 0)
  | JObj fields => negb (Nat.eqb (length fields) 0)
  end.

(** [len(x)]. *)
Definition len (v : json) : res nat :=
  match v with
  | JArr items => Ok (length items)
  | JObj fields => Ok (length fields)
  | JStr s => Ok (String.length s)
  | _ => Err TypeError
  end.

(** [x[k]] with a string key [k]. *)
Definition getitem (v : json) (k : string) : res json :=
  match v with
  | JObj fields =>
      match dict_get k fields with
      | Some x => Ok x
      | None => Err (KeyError k)
      end
  | _ => Err TypeError
  end.

(** [k in x] with a string [k]: a key of a dict, an item of a list, a
    substring of a string. *)
Definition contains (k : string) (v : json) : res bool :=
  match v with
  | JObj fields => Ok (dict_has k fields)
  | JArr items =>
      Ok (existsb (fun x => match x with
                            | JStr s => String.eqb k s
                            | _ => false
                            end) items)
  | JStr s => Ok (str_contains k s)
  | _ => Err TypeError
  end.

(** [for x in v]: the items the loop visits. *)
Definition iter (v : json) : res (list json) :=
  match v with
  | JArr items => Ok items
  | JObj fields => Ok (map (fun kv => JStr (fst kv)) fields)
  | JStr s => Ok (str_chars s)
  | _ => Err TypeError
  end.

Definition as_number (v : json) : option Qc :=
  match v with
  | JBool b => Some (if b then 1%Qc else 0%Qc)
  | JNum q => Some q
  | _ => None
  end.

(** [a + b]. *)
Definition add (a b : json) : res json :=
  match a, b with
  | JArr xs, JArr ys => Ok (JArr (xs ++ ys))
  | JStr s, JStr t => Ok (JStr (s ++ t))
  | _, _ =>
      match as_number a, as_number b with
      | Some x, Some y => Ok (JNum (x + y)%Qc)
      | _, _ => Err TypeError
      end
  end.

(** [a == b].  The module compares a list with a sub-list of itself that
    holds the very same objects, where Python's comparison (lengths, then
    items by identity first) agrees with structural equality. *)
Fixpoint eqb (a b : json) : bool :=
  match a, b with
  | JNull, JNull => true
  | JBool x, JBool y => Bool.eqb x y
  | JNum x, JNum y => bool_decide (x = y)
  | JStr x, JStr y => String.eqb x y
  | JArr xs, JArr ys =>
      (fix go (xs ys : list json) : bool :=
         match xs, ys with
         | [], [] => true
         | x :: xs', y :: ys' => eqb x y && go xs' ys'
         | _, _ => false
         end) xs ys
  | JObj xs, JObj ys =>
      (fix go (xs ys : list (string * json)) : bool :=
         match xs, ys with
         | [], [] => true
         | (k, x) :: xs', (l, y) :: ys' => String.eqb k l && eqb x y && go xs' ys'
         | _, _ => false
         end) xs ys
  | _, _ => false
  end.

(** [[x for x in items if p(x)]] where [p] may raise. *)
Fixpoint comprehension (p : json -> res bool) (items : list json) : res (list json) :=
  match items with
  | [] => Ok []
  | x :: rest =>
      try! keep := p x in
      try! tail := comprehension p rest in
      Ok (if keep then x :: tail else tail)
  end.

End Py.

(** Equality of values is decidable. *)
Definition json_eq_dec : forall a b : json, {a = b} + {a <> b}.
Proof.
  fix rec 1. intros a b. decide equality.
  - apply bool_dec.
  - apply Qc_eq_dec.
  - apply string_dec.
  - apply (List.list_eq_dec rec).
  - apply List.list_eq_dec. intros [k x] [l y].
    destruct (string_dec k l) as [-> | Hk].
    + destruct (rec x y) as [-> | Hx]; [left; reflexivity | right; congruence].
    + right; congruence.
Defined.

#[global] Instance json_eq_decision : EqDecision json := json_eq_dec.

(** ** The metric registry *)

Abbreviation series := (gmap (string * string) Z).

(** One field per instrument the module declares, under the module's own
    names.  A counter counts; a gauge holds the last value [set] on it (0 at
    start-up); a gauge with labels holds one value per tuple of label values
    it has been asked for so far. *)
Record registry : Type := Registry {
  ONCALL_API_REQUESTS_TOTAL : nat;
  ONCALL_API_REQUESTS_FAILED_TOTAL : nat;
  ONCALL_HEALTH_STATUS : Z;
  ONCALL_USERS_TOTAL : Z;
  ONCALL_USERS_WITHOUT_CONTACTS_GAUGE : Z;
  ONCALL_USERS_WITHOUT_PHONE_NUMBER : Z;
  ONCALL_TEAMS_TOTAL : Z;
  ONCALL_TEAMS_UNDERSTAFFED : Z;
  ONCALL_TEAM_ROTATION_STAFF_COUNT : series;
  ONCALL_TEAMS_TOTAL_UNREACHABLE_BY_PHONE : Z;
  ONCALL_TEAM_ROTATION_UNREACHABLE_BY_PHONE_COUNT : series
}.

(** What a scrape shows of the gauges, the two counters left out. *)
Record gauges : Type := Gauges {
  g_health_status : Z;
  g_users_total : Z;
  g_users_without_contacts : Z;
  g_users_without_phone : Z;
  g_teams_total : Z;
  g_teams_understaffed : Z;
  g_team_rotation_staff_count : series;
  g_teams_total_unreachable_by_phone : Z;
  g_team_unreachable_by_phone_count : series
}.

Definition gauges_of (r : registry) : gauges :=
  {| g_health_status := ONCALL_HEALTH_STATUS r;
     g_users_total := ONCALL_USERS_TOTAL r;
     g_users_without_contacts := ONCALL_USERS_WITHOUT_CONTACTS_GAUGE r;
     g_users_without_phone := ONCALL_USERS_WITHOUT_PHONE_NUMBER r;
     g_teams_total := ONCALL_TEAMS_TOTAL r;
     g_teams_understaffed := ONCALL_TEAMS_UNDERSTAFFED r;
     g_team_rotation_staff_count := ONCALL_TEAM_ROTATION_STAFF_COUNT r;
     g_teams_total_unreachable_by_phone := ONCALL_TEAMS_TOTAL_UNREACHABLE_BY_PHONE r;
     g_team_unreachable_by_phone_count := ONCALL_TEAM_ROTATION_UNREACHABLE_BY_PHONE_COUNT r |}.

Module Reg.

Definition inc_requests_total (r : registry) : registry :=
  Registry (S (ONCALL_API_REQUESTS_TOTAL r)) (ONCALL_API_REQUESTS_FAILED_TOTAL r)
    (ONCALL_HEALTH_STATUS r) (ONCALL_USERS_TOTAL r)
    (ONCALL_USERS_WITHOUT_CONTACTS_GAUGE r) (ONCALL_USERS_WITHOUT_PHONE_NUMBER r)
    (ONCALL_TEAMS_TOTAL r) (ONCALL_TEAMS_UNDERSTAFFED r)
    (ONCALL_TEAM_ROTATION_STAFF_COUNT r) (ONCALL_TEAMS_TOTAL_UNREACHABLE_BY_PHONE r)
    (ONCALL_TEAM_ROTATION_UNREACHABLE_BY_PHONE_COUNT r).

Definition inc_requests_failed_total (r : registry) : registry :=
  Registry (ONCALL_API_REQUESTS_TOTAL r) (S (ONCALL_API_REQUESTS_FAILED_TOTAL r))
    (ONCALL_HEALTH_STATUS r) (ONCALL_USERS_TOTAL r)
    (ONCALL_USERS_WITHOUT_CONTACTS_GAUGE r) (ONCALL_USERS_WITHOUT_PHONE_NUMBER r)
    (ONCALL_TEAMS_TOTAL r) (ONCALL_TEAMS_UNDERSTAFFED r)
    (ONCALL_TEAM_ROTATION_STAFF_COUNT r) (ONCALL_TEAMS_TOTAL_UNREACHABLE_BY_PHONE r)
    (ONCALL_TEAM_ROTATION_UNREACHABLE_BY_PHONE_COUNT r).

Definition set_health_status (v : Z) (r : registry) : registry :=
  Registry (ONCALL_API_REQUESTS_TOTAL r) (ONCALL_API_REQUESTS_FAILED_TOTAL r)
    v (ONCALL_USERS_TOTAL r)
    (ONCALL_USERS_WITHOUT_CONTACTS_GAUGE r) (ONCALL_USERS_WITHOUT_PHONE_NUMBER r)
    (ONCALL_TEAMS_TOTAL r) (ONCALL_TEAMS_UNDERSTAFFED r)
    (ONCALL_TEAM_ROTATION_STAFF_COUNT r) (ONCALL_TEAMS_TOTAL_UNREACHABLE_BY_PHONE r)
    (ONCALL_TEAM_ROTATION_UNREACHABLE_BY_PHONE_COUNT r).

Definition set_users_total (v : Z) (r : registry) : registry :=
  Registry (ONCALL_API_REQUESTS_TOTAL r) (ONCALL_API_REQUESTS_FAILED_TOTAL r)
    (ONCALL_HEALTH_STATUS r) v
    (ONCALL_USERS_WITHOUT_CONTACTS_GAUGE r) (ONCALL_USERS_WITHOUT_PHONE_NUMBER r)
    (ONCALL_TEAMS_TOTAL r) (ONCALL_TEAMS_UNDERSTAFFED r)
    (ONCALL_TEAM_ROTATION_STAFF_COUNT r) (ONCALL_TEAMS_TOTAL_UNREACHABLE_BY_PHONE r)
    (ONCALL_TEAM_ROTATION_UNREACHABLE_BY_PHONE_COUNT r).

Definition set_users_without_contacts (v : Z) (r : registry) : registry :=
  Registry (ONCALL_API_REQUESTS_TOTAL r) (ONCALL_API_REQUESTS_FAILED_TOTAL r)
    (ONCALL_HEALTH_STATUS r) (ONCALL_USERS_TOTAL r)
    v (ONCALL_USERS_WITHOUT_PHONE_NUMBER r)
    (ONCALL_TEAMS_TOTAL r) (ONCALL_TEAMS_UNDERSTAFFED r)
    (ONCALL_TEAM_ROTATION_STAFF_COUNT r) (ONCALL_TEAMS_TOTAL_UNREACHABLE_BY_PHONE r)
    (ONCALL_TEAM_ROTATION_UNREACHABLE_BY_PHONE_COUNT r).

Definition set_users_without_phone (v : Z) (r : registry) : registry :=
  Registry (ONCALL_API_REQUESTS_TOTAL r) (ONCALL_API_REQUESTS_FAILED_TOTAL r)
    (ONCALL_HEALTH_STATUS r) (ONCALL_USERS_TOTAL r)
    (ONCALL_USERS_WITHOUT_CONTACTS_GAUGE r) v
    (ONCALL_TEAMS_TOTAL r) (ONCALL_TEAMS_UNDERSTAFFED r)
    (ONCALL_TEAM_ROTATION_STAFF_COUNT r) (ONCALL_TEAMS_TOTAL_UNREACHABLE_BY_PHONE r)
    (ONCALL_TEAM_ROTATION_UNREACHABLE_BY_PHONE_COUNT r).

Definition set_teams_total (v : Z) (r : registry) : registry :=
  Registry (ONCALL_API_REQUESTS_TOTAL r) (ONCALL_API_REQUESTS_FAILED_TOTAL r)
    (ONCALL_HEALTH_STATUS r) (ONCALL_USERS_TOTAL r)
    (ONCALL_USERS_WITHOUT_CONTACTS_GAUGE r) (ONCALL_USERS_WITHOUT_PHONE_NUMBER r)
    v (ONCALL_TEAMS_UNDERSTAFFED r)
    (ONCALL_TEAM_ROTATION_STAFF_COUNT r) (ONCALL_TEAMS_TOTAL_UNREACHABLE_BY_PHONE r)
    (ONCALL_TEAM_ROTATION_UNREACHABLE_BY_PHONE_COUNT r).

Definition set_teams_understaffed (v : Z) (r : registry) : registry :=
  Registry (ONCALL_API_REQUESTS_TOTAL r) (ONCALL_API_REQUESTS_FAILED_TOTAL r)
    (ONCALL_HEALTH_STATUS r) (ONCALL_USERS_TOTAL r)
    (ONCALL_USERS_WITHOUT_CONTACTS_GAUGE r) (ONCALL_USERS_WITHOUT_PHONE_NUMBER r)
    (ONCALL_TEAMS_TOTAL r) v
    (ONCALL_TEAM_ROTATION_STAFF_COUNT r) (ONCALL_TEAMS_TOTAL_UNREACHABLE_BY_PHONE r)
    (ONCALL_TEAM_ROTATION_UNREACHABLE_BY_PHONE_COUNT r).

Definition set_teams_total_unreachable_by_phone (v : Z) (r : registry) : registry :=
  Registry (ONCALL_API_REQUESTS_TOTAL r) (ONCALL_API_REQUESTS_FAILED_TOTAL r)
    (ONCALL_HEALTH_STATUS r) (ONCALL_USERS_TOTAL r)
    (ONCALL_USERS_WITHOUT_CONTACTS_GAUGE r) (ONCALL_USERS_WITHOUT_PHONE_NUMBER r)
    (ONCALL_TEAMS_TOTAL r) (ONCALL_TEAMS_UNDERSTAFFED r)
    (ONCALL_TEAM_ROTATION_STAFF_COUNT r) v
    (ONCALL_TEAM_ROTATION_UNREACHABLE_BY_PHONE_COUNT r).

(** [GAUGE.labels(team_name, rotation).set(v)]: the series is created on
    its first use and overwritten afterwards. *)
Definition set_team_rotation_staff_count
    (team_name rotation : string) (v : Z) (r : registry) : registry :=
  Registry (ONCALL_API_REQUESTS_TOTAL r) (ONCALL_API_REQUESTS_FAILED_TOTAL r)
    (ONCALL_HEALTH_STATUS r) (ONCALL_USERS_TOTAL r)
    (ONCALL_USERS_WITHOUT_CONTACTS_GAUGE r) (ONCALL_USERS_WITHOUT_PHONE_NUMBER r)
    (ONCALL_TEAMS_TOTAL r) (ONCALL_TEAMS_UNDERSTAFFED r)
    (<[(team_name, rotation) := v]> (ONCALL_TEAM_ROTATION_STAFF_COUNT r))
    (ONCALL_TEAMS_TOTAL_UNREACHABLE_BY_PHONE r)
    (ONCALL_TEAM_ROTATION_UNREACHABLE_BY_PHONE_COUNT r).

Definition set_team_rotation_unreachable_by_phone_count
    (team_name rotation : string) (v : Z) (r : registry) : registry :=
  Registry (ONCALL_API_REQUESTS_TOTAL r) (ONCALL_API_REQUESTS_FAILED_TOTAL r)
    (ONCALL_HEALTH_STATUS r) (ONCALL_USERS_TOTAL r)
    (ONCALL_USERS_WITHOUT_CONTACTS_GAUGE r) (ONCALL_USERS_WITHOUT_PHONE_NUMBER r)
    (ONCALL_TEAMS_TOTAL r) (ONCALL_TEAMS_UNDERSTAFFED r)
    (ONCALL_TEAM_ROTATION_STAFF_COUNT r)
    (ONCALL_TEAMS_TOTAL_UNREACHABLE_BY_PHONE r)
    (<[(team_name, rotation) := v]> (ONCALL_TEAM_ROTATION_UNREACHABLE_BY_PHONE_COUNT r)).

End Reg.

(** ** The process state and the monad of the updaters *)

(** [sent] numbers the outgoing requests, so that the upstream service may
    answer the same path differently from one request to the next;
    [logged] is what [logging.exception] has recorded.  Messages logged at
    other levels are not part of the state. *)
Record state : Type := State {
  metrics : registry;
  sent : nat;
  logged : list exn
}.

Inductive outcome (A : Type) : Type :=
| Return (a : A)
| Raise (e : exn).
Arguments Return {A} a.
Arguments Raise {A} e.

Definition M (A : Type) : Type := state -> outcome A * state.

Definition ret {A} (a : A) : M A := fun s => (Return a, s).

Definition bind {A B} (m : M A) (k : A -> M B) : M B :=
  fun s =>
    match m s with
    | (Return a, s') => k a s'
    | (Raise e, s') => (Raise e, s')
    end.

Notation "'do!' x ':=' m 'in' k" := (bind m (fun x => k))
  (at level 10, x name, m at level 100, k at level 200,
   format "'[v' 'do!'  x  ':='  m  'in' '/' k ']'").
Notation "m ';;' k" := (bind m (fun _ => k))
  (at level 100, k at level 200, right associativity).

(** A computation on values that may raise, run inside an updater. *)
Definition lift {A} (r : res A) : M A :=
  fun s =>
    match r with
    | Ok a => (Return a, s)
    | Err e => (Raise e, s)
    end.

(** A write to the registry. *)
Definition update (f : registry -> registry) : M unit :=
  fun s => (Return tt, State (f (metrics s)) (sent s) (logged s)).

(** ** The upstream service *)

Record response : Type := Response {
  status_code : Z;
  (** what [resp.json()] decodes, [None] when the body is not JSON *)
  payload : option json
}.

(** [requests.get] either raises (no response within the timeout, refused
    connection, ...) or returns a response. *)
Inductive reply : Type :=
| NoResponse
| Responded (resp : response).

Definition resp_json (resp : response) : M json :=
  match payload resp with
  | Some v => ret v
  | None => fun s => (Raise JSONDecodeError, s)
  end.

Section Exporter.

(** [Config.oncall_exporter_api_url]. *)
Variable oncall_exporter_api_url : string.

(** The answer of the service to the [n]-th request of the process, sent
    to a given URL. *)
Variable upstream : nat -> string -> reply.

(** Python's [str] on a value that is not a string. *)
Variable repr : json -> string.

(** [f"{v}"], and [str(v)] as [labels] applies it to a label value. *)
Definition str (v : json) : string :=
  match v with
  | JStr s => s
  | _ => repr v
  end.

Definition requests_get (url : string) : M response :=
  fun s =>
    let s' := State (metrics s) (S (sent s)) (logged s) in
    match upstream (sent s) url with
    | NoResponse => (Raise TransportError, s')
    | Responded resp => (Return resp, s')
    end.

Definition request_with_counting (path : string) : M response :=
  update Reg.inc_requests_total ;;
  do! resp := requests_get (oncall_exporter_api_url ++ path) in
  (if negb (status_code resp =? 200)%Z
   then update Reg.inc_requests_failed_total
   else ret tt) ;;
  ret resp.

(** *** [health] *)

Definition health : M unit :=
  do! resp := request_with_counting "/" in
  if (status_code resp =? 200)%Z
  then update (Reg.set_health_status 1)
  else update (Reg.set_health_status 0).

(** *** [number_of_users_without_contacts] *)

(** [k1 not in c and k2 not in c], the container being looked up again
    for the second test, which runs only when the first one holds. *)
Definition lacks_both (v : json) (field k1 k2 : string) : res bool :=
  try! c := Py.getitem v field in
  try! has1 := Py.contains k1 c in
  if has1 then Ok false
  else
    try! c' := Py.getitem v field in
    try! has2 := Py.contains k2 c' in
    Ok (negb has2).

(** The body of [for user in users], threading the two local counters.
    The debug messages are f-strings: [user['name']] is looked up
    whenever the branch is taken, whatever the log level. *)
Definition users_step (user : json) (acc : nat * nat) : res (nat * nat) :=
  let '(failed_users, no_phone) := acc in
  try! contacts := Py.getitem user "contacts" in
  try! failed_users :=
    (if negb (Py.truthy contacts)
     then try! _ := Py.getitem user "name" in Ok (S failed_users)
     else Ok failed_users) in
  try! unreachable := lacks_both user "contacts" "call" "sms" in
  try! no_phone :=
    (if unreachable
     then try! _ := Py.getitem user "name" in Ok (S no_phone)
     else Ok no_phone) in
  Ok (failed_users, no_phone).

Fixpoint users_loop (users : list json) (acc : nat * nat) : res (nat * nat) :=
  match users with
  | [] => Ok acc
  | user :: rest =>
      try! acc' := users_step user acc in
      users_loop rest acc'
  end.

Definition number_of_users_without_contacts : M unit :=
  do! resp := request_with_counting "/api/v0/users" in
  if negb (status_code resp =? 200)%Z then ret tt
  else
    do! users := resp_json resp in
    do! _ := lift (Py.len users) in
    do! n := lift (Py.len users) in
    update (Reg.set_users_total (Z.of_nat n)) ;;
    do! items := lift (Py.iter users) in
    do! counts := lift (users_loop items (0, 0)) in
    update (Reg.set_users_without_contacts (Z.of_nat (fst counts))) ;;
    update (Reg.set_users_without_phone (Z.of_nat (snd counts))).

(** *** [teams] *)

(** The body of [for event_time in ["current", "next"]], threading the
    two flags [(is_understaffed, is_unreachable_by_phone)]. *)
Definition slot_step (team_name team_data : json) (event_time : string)
    (flags : bool * bool) : M (bool * bool) :=
  let '(is_understaffed, is_unreachable_by_phone) := flags in
  do! event := lift (Py.getitem team_data event_time) in
  if negb (Py.truthy event) then
    update (Reg.set_team_rotation_staff_count (str team_name) event_time 0) ;;
    update (Reg.set_team_rotation_unreachable_by_phone_count
              (str team_name) event_time 0) ;;
    ret flags
  else
    do! primary := lift (Py.getitem event "primary") in
    do! secondary := lift (Py.getitem event "secondary") in
    do! members := lift (Py.add primary secondary) in
    do! items := lift (Py.iter members) in
    do! members_without_number :=
      lift (Py.comprehension
              (fun member => lacks_both member "user_contacts" "call" "sms")
              items) in
    do! n := lift (Py.len members) in
    update (Reg.set_team_rotation_staff_count
              (str team_name) event_time (Z.of_nat n)) ;;
    update (Reg.set_team_rotation_unreachable_by_phone_count
              (str team_name) event_time
              (Z.of_nat (length members_without_number))) ;;
    do! n' := lift (Py.len members) in
    let is_understaffed :=
      if Nat.ltb n' 2 then true else is_understaffed in
    let is_unreachable_by_phone :=
      if Py.eqb (JArr members_without_number) members
      then true else is_unreachable_by_phone in
    ret (is_understaffed, is_unreachable_by_phone).

Fixpoint slots_loop (team_name team_data : json) (event_times : list string)
    (flags : bool * bool) : M (bool * bool) :=
  match event_times with
  | [] => ret flags
  | event_time :: rest =>
      do! flags' := slot_step team_name team_data event_time flags in
      slots_loop team_name team_data rest flags'
  end.

(** The body of [for team_name in teams], threading the two local
    counters [(understaffed, unreachable)]; [continue] hands them on
    unchanged. *)
Definition team_step (team_name : json) (acc : nat * nat) : M (nat * nat) :=
  let '(understaffed, unreachable) := acc in
  do! team_data :=
    request_with_counting ("/api/v0/teams/" ++ str team_name ++ "/summary") in
  if negb (status_code team_data =? 200)%Z then ret acc
  else
    do! team_data := resp_json team_data in
    do! flags :=
      slots_loop team_name team_data ["current"; "next"] (false, false) in
    let understaffed := if fst flags then S understaffed else understaffed in
    let unreachable := if snd flags then S unreachable else unreachable in
    ret (understaffed, unreachable).

Fixpoint teams_loop (teams : list json) (acc : nat * nat) : M (nat * nat) :=
  match teams with
  | [] => ret acc
  | team_name :: rest =>
      do! acc' := team_step team_name acc in
      teams_loop rest acc'
  end.

Definition teams : M unit :=
  do! resp := request_with_counting "/api/v0/teams" in
  if negb (status_code resp =? 200)%Z then ret tt
  else
    do! teams := resp_json resp in
    do! _ := lift (Py.len teams) in
    do! n := lift (Py.len teams) in
    update (Reg.set_teams_total (Z.of_nat n)) ;;
    do! items := lift (Py.iter teams) in
    do! counts := teams_loop items (0, 0) in
    update (Reg.set_teams_understaffed (Z.of_nat (fst counts))) ;;
    update (Reg.set_teams_total_unreachable_by_phone (Z.of_nat (snd counts))).

(** *** The scheduler loop *)

(** The updaters, in the order the [@updater] decorator registered them. *)
Definition updaters : list (M unit) :=
  [health; number_of_users_without_contacts; teams].

(** [try: func() except Exception as e: logging.exception(e)]. *)
Definition try_except (func : M unit) : M unit :=
  fun s =>
    match func s with
    | (Return tt, s') => (Return tt, s')
    | (Raise e, s') =>
        (Return tt, State (metrics s') (sent s') (logged s' ++ [e]))
    end.

(** [for func in updaters: ...]. *)
Fixpoint run_pass (funcs : list (M unit)) : M unit :=
  match funcs with
  | [] => ret tt
  | func :: rest => try_except func ;; run_pass rest
  end.

(** The first [passes] turns of [while True: ...; time.sleep(...)]. *)
Fixpoint main_loop (passes : nat) : M unit :=
  match passes with
  | O => ret tt
  | S n => run_pass updaters ;; main_loop n
  end.

End Exporter.

(** ** The payloads of the on-call API *)

(** The shapes the service documents for its answers:
    a user is [{name, contacts: {...}}], a rotation summary is
    [{current: Event|null, next: Event|null}] with
    [Event = {primary: [Member], secondary: [Member]}] and
    [Member = {user_contacts: {...}}]. *)
Module Shape.

Definition user (v : json) : bool :=
  match Py.getitem v "name", Py.getitem v "contacts" with
  | Ok _, Ok (JObj _) => true
  | _, _ => false
  end.

Definition member (v : json) : bool :=
  match Py.getitem v "user_contacts" with
  | Ok (JObj _) => true
  | _ => false
  end.

Definition event (v : json) : bool :=
  match Py.getitem v "primary", Py.getitem v "secondary" with
  | Ok (JArr p), Ok (JArr q) => forallb member p && forallb member q
  | _, _ => false
  end.

(** A slot holds an event, or something falsy ([null]) when no rotation
    is scheduled. *)
Definition slot (v : json) : bool :=
  negb (Py.truthy v) || event v.

Definition summary (v : json) : bool :=
  match Py.getitem v "current", Py.getitem v "next" with
  | Ok c, Ok n => slot c && slot n
  | _, _ => false
  end.

End Shape.

(** ** What the gauges are meant to show

    These definitions follow the wording of the specification, not the
    code; the theorems below compare the updaters with them. *)
Module Spec.

(** The mapping stored under [field], empty when there is none. *)
Definition mapping (v : json) (field : string) : list (string * json) :=
  match Py.getitem v field with
  | Ok (JObj m) => m
  | _ => []
  end.

(** "has contacts" iff the contacts mapping is non-empty. *)
Definition without_contacts (user : json) : bool :=
  match mapping user "contacts" with
  | [] => true
  | _ :: _ => false
  end.

(** "has phone reachability" iff the mapping contains key [call] or
    key [sms]. *)
Definition without_phone (v : json) (field : string) : bool :=
  negb (Py.dict_has "call" (mapping v field))
  && negb (Py.dict_has "sms" (mapping v field)).

(** Effective membership: primary followed by secondary. *)
Definition members (event : json) : list json :=
  match Py.getitem event "primary", Py.getitem event "secondary" with
  | Ok (JArr p), Ok (JArr q) => p ++ q
  | _, _ => []
  end.

Definition members_without_number (event : json) : list json :=
  List.filter (fun m => without_phone m "user_contacts") (members event).

(** A slot counts when its event is present and non-empty. *)
Definition staffed (slot : json) : bool := Py.truthy slot.

Definition staff_count (slot : json) : nat :=
  if staffed slot then length (members slot) else 0.

Definition unreachable_count (slot : json) : nat :=
  if staffed slot then length (members_without_number slot) else 0.

Definition slot_of (summary : json) (event_time : string) : json :=
  match Py.getitem summary event_time with
  | Ok v => v
  | Err _ => JNull
  end.

(** Fewer than two members on the slot. *)
Definition slot_understaffed (slot : json) : bool :=
  staffed slot && Nat.ltb (length (members slot)) 2.

(** The unreachable subset is the whole member list. *)
Definition slot_unreachable (slot : json) : bool :=
  staffed slot && bool_decide (members_without_number slot = members slot).

(** Team flags: either slot raises them. *)
Definition team_understaffed (summary : json) : bool :=
  slot_understaffed (slot_of summary "current")
  || slot_understaffed (slot_of summary "next").

Definition team_unreachable (summary : json) : bool :=
  slot_unreachable (slot_of summary "current")
  || slot_unreachable (slot_of summary "next").

(** The successful answer of a fetch, if any. *)
Definition fetched (r : reply) : option json :=
  match r with
  | Responded resp =>
      if (status_code resp =? 200)%Z then payload resp else None
  | NoResponse => None
  end.

Definition counts_understaffed (r : reply) : bool :=
  match fetched r with
  | Some summary => team_understaffed summary
  | None => false
  end.

Definition counts_unreachable (r : reply) : bool :=
  match fetched r with
  | Some summary => team_unreachable summary
  | None => false
  end.

End Spec.

(** A summary request that was answered, with a summary of the documented
    shape when the status is 200. *)
Definition summary_reply_ok (r : reply) : bool :=
  match r with
  | NoResponse => false
  | Responded resp =>
      if (status_code resp =? 200)%Z
      then match payload resp with
           | Some summary => Shape.summary summary
           | None => false
           end
      else true
  end.

(** The summary requests of one pass over [teams], the first of them
    being request number [n]: the label of each team with the answer to
    its request. *)
Fixpoint answers (api_url : string) (upstream : nat -> string -> reply)
    (repr : json -> string) (n : nat) (teams : list json)
    : list (string * reply) :=
  match teams with
  | [] => []
  | team_name :: rest =>
      (str repr team_name,
       upstream n (api_url ++ "/api/v0/teams/" ++ str repr team_name ++ "/summary"))
      :: answers api_url upstream repr (S n) rest
  end.

Definition summaries (api_url : string) (upstream : nat -> string -> reply)
    (repr : json -> string) (n : nat) (teams : list json) : list reply :=
  map snd (answers api_url upstream repr n teams).

(** The gauges one by one, to speak of "the value of a series". *)
Inductive gauge_key : Type :=
| HealthStatus
| UsersTotal
| UsersWithoutContacts
| UsersWithoutPhone
| TeamsTotal
| TeamsUnderstaffed
| TeamsUnreachableByPhone
| RotationStaffCount (team_name rotation : string)
| RotationUnreachableCount (team_name rotation : string).

Definition read (r : registry) (k : gauge_key) : option Z :=
  match k with
  | HealthStatus => Some (ONCALL_HEALTH_STATUS r)
  | UsersTotal => Some (ONCALL_USERS_TOTAL r)
  | UsersWithoutContacts => Some (ONCALL_USERS_WITHOUT_CONTACTS_GAUGE r)
  | UsersWithoutPhone => Some (ONCALL_USERS_WITHOUT_PHONE_NUMBER r)
  | TeamsTotal => Some (ONCALL_TEAMS_TOTAL r)
  | TeamsUnderstaffed => Some (ONCALL_TEAMS_UNDERSTAFFED r)
  | TeamsUnreachableByPhone => Some (ONCALL_TEAMS_TOTAL_UNREACHABLE_BY_PHONE r)
  | RotationStaffCount t e => ONCALL_TEAM_ROTATION_STAFF_COUNT r !! (t, e)
  | RotationUnreachableCount t e =>
      ONCALL_TEAM_ROTATION_UNREACHABLE_BY_PHONE_COUNT r !! (t, e)
  end.

(** A write pattern that, gauge by gauge, either stores a value fixed in
    advance or leaves the gauge alone, and that advances each counter by a
    fixed amount. *)
Definition overwrites (w : registry -> registry) : Prop :=
  (forall k, (exists v, forall r, read (w r) k = v)
             \/ (forall r, read (w r) k = read r k))
  /\ (exists c, forall r,
        ONCALL_API_REQUESTS_TOTAL (w r) = c + ONCALL_API_REQUESTS_TOTAL r)
  /\ (exists c, forall r,
        ONCALL_API_REQUESTS_FAILED_TOTAL (w r)
        = c + ONCALL_API_REQUESTS_FAILED_TOTAL r).

(** A computation whose result and writes do not depend on the state it
    starts from. *)
Definition uniform {A} (m : M A) : Prop :=
  exists (out : outcome A) (w : registry -> registry) (n : nat),
    overwrites w
    /\ forall s, m s = (out, State (w (metrics s)) (n + sent s) (logged s)).

(** The state an updater leaves behind once the scheduler has dealt with
    its exception, if any. *)
Definition guarded (func : M unit) (s : state) : state :=
  match func s with
  | (Return _, s') => s'
  | (Raise e, s') => State (metrics s') (sent s') (logged s' ++ [e])
  end.

(** A 2xx status. *)
Definition is_2xx (status : Z) : bool :=
  (200 <=? status)%Z && (status <? 300)%Z.

Definition b2n (b : bool) : nat := if b then 1 else 0.

(** The registry after one request, by what came back. *)
Definition counted (r : reply) (m : registry) : registry :=
  match r with
  | NoResponse => Reg.inc_requests_total m
  | Responded resp =>
      if (status_code resp =? 200)%Z
      then Reg.inc_requests_total m
      else Reg.inc_requests_failed_total (Reg.inc_requests_total m)
  end.

(** The registry once a slot has been reported for a team. *)
Definition slot_written (team_name event_time : string) (slot : json)
    (m : registry) : registry :=
  Reg.set_team_rotation_unreachable_by_phone_count team_name event_time
    (Z.of_nat (Spec.unreachable_count slot))
    (Reg.set_team_rotation_staff_count team_name event_time
       (Z.of_nat (Spec.staff_count slot)) m).

(** The registry once a team has been dealt with, by the answer to its
    summary request. *)
Definition team_processed (team_name : string) (r : reply) (m : registry)
    : registry :=
  match Spec.fetched r with
  | Some summary =>
      slot_written team_name "next" (Spec.slot_of summary "next")
        (slot_written team_name "current" (Spec.slot_of summary "current")
           (counted r m))
  | None => counted r m
  end.

Fixpoint teams_processed (answers : list (string * reply)) (m : registry)
    : registry :=
  match answers with
  | [] => m
  | (team_name, r) :: rest => teams_processed rest (team_processed team_name r m)
  end.

(** The process right after start-up: counters and gauges at 0, no
    labelled series yet. *)
Definition startup : state :=
  State (Registry 0 0 0 0 0 0 0 0 ∅ 0 ∅) 0 [].

(** ** Registration of the updaters *)

(** The [@updater] decorator: [updaters.append(F)], the function itself
    being handed back unchanged. *)
Definition updater (F : M unit) (registered : list (M unit)) : list (M unit) :=
  (registered ++ [F])%list.

(** ** Relating the state before and after a computation *)

(** [along R m]: whatever [m] returns or raises, the state it leaves is
    related by [R] to the state it started from. *)
Definition along {A} (R : state -> state -> Prop) (m : M A) : Prop :=
  forall s, R s (snd (m s)).

(** Some observation of the state is left as it was. *)
Definition keeps {X} (proj : state -> X) : state -> state -> Prop :=
  fun s s' => proj s' = proj s.

(** A property of the state survives. *)
Definition preserves (I : state -> Prop) : state -> state -> Prop :=
  fun s s' => I s -> I s'.

(** Requests counted against requests sent: both grow by the same amount,
    and the failure counter by no more. *)
Definition accounted (s s' : state) : Prop :=
  sent s <= sent s'
  /\ ONCALL_API_REQUESTS_TOTAL (metrics s') + sent s
     = ONCALL_API_REQUESTS_TOTAL (metrics s) + sent s'
  /\ ONCALL_API_REQUESTS_FAILED_TOTAL (metrics s)
     <= ONCALL_API_REQUESTS_FAILED_TOTAL (metrics s')
  /\ ONCALL_API_REQUESTS_FAILED_TOTAL (metrics s')
     + ONCALL_API_REQUESTS_TOTAL (metrics s)
     <= ONCALL_API_REQUESTS_FAILED_TOTAL (metrics s)
        + ONCALL_API_REQUESTS_TOTAL (metrics s').

(** The log only ever grows at its end. *)
Definition log_extended (s s' : state) : Prop :=
  exists more, logged s' = (logged s ++ more)%list.

(** The labelled series a team and slot have, if any. *)
Definition rotation_series (m : registry) (team_name rotation : string)
    : option Z * option Z :=
  (ONCALL_TEAM_ROTATION_STAFF_COUNT m !! (team_name, rotation),
   ONCALL_TEAM_ROTATION_UNREACHABLE_BY_PHONE_COUNT m !! (team_name, rotation)).

(** A series, once created, stays. *)
Definition series_kept (s s' : state) : Prop :=
  forall t e,
    (is_Some (fst (rotation_series (metrics s) t e))
     -> is_Some (fst (rotation_series (metrics s') t e)))
    /\ (is_Some (snd (rotation_series (metrics s) t e))
        -> is_Some (snd (rotation_series (metrics s') t e))).

(** The two labelled gauges go together: a team and slot has both series
    or neither, the slot is [current] or [next], and no more members are
    unreachable than there are members. *)
Definition series_consistent (s : state) : Prop :=
  forall t e,
    match rotation_series (metrics s) t e with
    | (Some n, Some u) =>
        (0 <= u <= n)%Z /\ (e = "current" \/ e = "next")
    | (None, None) => True
    | _ => False
    end.

(** The values a scrape can show: the health gauge is 0 or 1, no gauge is
    negative. *)
Definition in_range (s : state) : Prop :=
  let m := metrics s in
  (ONCALL_HEALTH_STATUS m = 0 \/ ONCALL_HEALTH_STATUS m = 1)%Z
  /\ (0 <= ONCALL_USERS_TOTAL m)%Z
  /\ (0 <= ONCALL_USERS_WITHOUT_CONTACTS_GAUGE m)%Z
  /\ (0 <= ONCALL_USERS_WITHOUT_PHONE_NUMBER m)%Z
  /\ (0 <= ONCALL_TEAMS_TOTAL m)%Z
  /\ (0 <= ONCALL_TEAMS_UNDERSTAFFED m)%Z
  /\ (0 <= ONCALL_TEAMS_TOTAL_UNREACHABLE_BY_PHONE m)%Z.

(** What [health] does not own. *)
Definition beside_health (s : state) :=
  let m := metrics s in
  (ONCALL_USERS_TOTAL m, ONCALL_USERS_WITHOUT_CONTACTS_GAUGE m,
   ONCALL_USERS_WITHOUT_PHONE_NUMBER m, ONCALL_TEAMS_TOTAL m,
   ONCALL_TEAMS_UNDERSTAFFED m, ONCALL_TEAMS_TOTAL_UNREACHABLE_BY_PHONE m,
   ONCALL_TEAM_ROTATION_STAFF_COUNT m,
   ONCALL_TEAM_ROTATION_UNREACHABLE_BY_PHONE_COUNT m).

(** What [number_of_users_without_contacts] does not own. *)
Definition beside_users (s : state) :=
  let m := metrics s in
  (ONCALL_HEALTH_STATUS m, ONCALL_TEAMS_TOTAL m,
   ONCALL_TEAMS_UNDERSTAFFED m, ONCALL_TEAMS_TOTAL_UNREACHABLE_BY_PHONE m,
   ONCALL_TEAM_ROTATION_STAFF_COUNT m,
   ONCALL_TEAM_ROTATION_UNREACHABLE_BY_PHONE_COUNT m).

(** What [teams] does not own. *)
Definition beside_teams (s : state) :=
  let m := metrics s in
  (ONCALL_HEALTH_STATUS m, ONCALL_USERS_TOTAL m,
   ONCALL_USERS_WITHOUT_CONTACTS_GAUGE m, ONCALL_USERS_WITHOUT_PHONE_NUMBER m).

(** The state after a request answered by [r], after a write [f] to the
    registry, and after the two writes that report [n] members, [u] of
    them unreachable, for a team and slot. *)
Definition requested (r : reply) (s : state) : state :=
  State (counted r (metrics s)) (S (sent s)) (logged s).

Definition written (f : registry -> registry) (s : state) : state :=
  State (f (metrics s)) (sent s) (logged s).

Definition pair_written (team_name event_time : string) (n u : nat)
    (m : registry) : registry :=
  Reg.set_team_rotation_unreachable_by_phone_count team_name event_time
    (Z.of_nat u)
    (Reg.set_team_rotation_staff_count team_name event_time (Z.of_nat n) m).

(** A relation that every step the updaters and the scheduler can take
    goes along with: a request, each write of a gauge with the kind of
    value the module gives it, the paired write of the two labelled
    series, and the logging of an exception. *)
Record stable (R : state -> state -> Prop) : Prop := Stable {
  stable_refl : forall s, R s s;
  stable_trans : forall a b c, R a b -> R b c -> R a c;
  stable_request : forall s r, R s (requested r s);
  stable_health : forall (up : bool) s,
    R s (written (Reg.set_health_status (if up then 1 else 0)) s);
  stable_users_total : forall n s,
    R s (written (Reg.set_users_total (Z.of_nat n)) s);
  stable_users_without_contacts : forall n s,
    R s (written (Reg.set_users_without_contacts (Z.of_nat n)) s);
  stable_users_without_phone : forall n s,
    R s (written (Reg.set_users_without_phone (Z.of_nat n)) s);
  stable_teams_total : forall n s,
    R s (written (Reg.set_teams_total (Z.of_nat n)) s);
  stable_teams_understaffed : forall n s,
    R s (written (Reg.set_teams_understaffed (Z.of_nat n)) s);
  stable_teams_unreachable : forall n s,
    R s (written (Reg.set_teams_total_unreachable_by_phone (Z.of_nat n)) s);
  stable_pair : forall l et n u s,
    et = "current" \/ et = "next" -> u <= n ->
    R s (written (pair_written l et n u) s);
  stable_log : forall s e,
    R s (State (metrics s) (sent s) (logged s ++ [e]))
}.

(** ** A small on-call service to run the updaters against *)
Module Demo.

Definition api_url : string := "http://oncall:8080".

(** Team names are strings here, [str] never falls back on this. *)
Definition repr (v : json) : string := "<value>".

Definition user (name : string) (contacts : list (string * json)) : json :=
  JObj [("name", JStr name); ("contacts", JObj contacts)].

Definition member (contacts : list (string * json)) : json :=
  JObj [("user_contacts", JObj contacts)].

Definition event (primary secondary : list json) : json :=
  JObj [("primary", JArr primary); ("secondary", JArr secondary)].

Definition summary (current next : json) : json :=
  JObj [("current", current); ("next", next)].

Definition with_phone : json :=
  member [("call", JStr "+1 555 0100"); ("email", JStr "a@example.org")].

Definition no_phone : json := member [("email", JStr "b@example.org")].

Definition users : list json :=
  [user "alice" []; user "bob" [("email", JStr "x")];
   user "carol" [("sms", JStr "+1 555 0101")]].

Definition team_names : list json := [JStr "a"; JStr "b"; JStr "c"; JStr "d"].

(** Team [a]: one reachable member now, two unreachable members next. *)
Definition summary_a : json :=
  summary (event [with_phone] []) (event [no_phone] [no_phone]).

(** Team [c] has no rotation at all. *)
Definition summary_c : json := summary JNull JNull.

(** Team [d] has a rotation now, with nobody on it. *)
Definition empty_event : json := event [] [].
Definition summary_d : json := summary empty_event JNull.

Definition ok (v : json) : response := Response 200 (Some v).
Definition front_page : response := Response 200 None.
Definition unavailable : response := Response 503 None.
Definition no_content : response := Response 204 None.

(** The summary of team [b] cannot be had. *)
Definition answer (url : string) : reply :=
  if String.eqb url "http://oncall:8080/" then Responded front_page
  else if String.eqb url "http://oncall:8080/api/v0/users"
  then Responded (ok (JArr users))
  else if String.eqb url "http://oncall:8080/api/v0/teams"
  then Responded (ok (JArr team_names))
  else if String.eqb url "http://oncall:8080/api/v0/teams/a/summary"
  then Responded (ok summary_a)
  else if String.eqb url "http://oncall:8080/api/v0/teams/b/summary"
  then Responded unavailable
  else if String.eqb url "http://oncall:8080/api/v0/teams/c/summary"
  then Responded (ok summary_c)
  else if String.eqb url "http://oncall:8080/api/v0/teams/d/summary"
  then Responded (ok summary_d)
  else NoResponse.

Definition upstream : nat -> string -> reply := fun _ => answer.

(** The same service answering 204 or 503 to everything. *)
Definition upstream_204 : nat -> string -> reply :=
  fun _ _ => Responded no_content.
Definition upstream_503 : nat -> string -> reply :=
  fun _ _ => Responded unavailable.

(** Two teams: [a] has three reachable members now and no rotation next,
    the summary of [b] cannot be had. *)
Definition upstream_two_teams : nat -> string -> reply :=
  fun _ url =>
    if String.eqb url "http://oncall:8080/api/v0/teams"
    then Responded (ok (JArr [JStr "a"; JStr "b"]))
    else if String.eqb url "http://oncall:8080/api/v0/teams/a/summary"
    then Responded
           (ok (summary (event [with_phone; with_phone] [with_phone]) JNull))
    else Responded unavailable.

(** A service in a bad way: the front page times out, the user list is
    not JSON, and the only team has a string where an event should be. *)
Definition upstream_broken : nat -> string -> reply :=
  fun _ url =>
    if String.eqb url "http://oncall:8080/" then NoResponse
    else if String.eqb url "http://oncall:8080/api/v0/users"
    then Responded (Response 200 None)
    else if String.eqb url "http://oncall:8080/api/v0/teams"
    then Responded (ok (JArr [JStr "a"]))
    else Responded (ok (summary (JStr "soon") JNull)).

(** A user list whose second entry has no [contacts]. *)
Definition users_bad : list json :=
  [user "alice" []; JObj [("name", JStr "bob")]].

Definition upstream_bad_user : nat -> string -> reply :=
  fun _ _ => Responded (ok (JArr users_bad)).

(** A state some passes into the life of the process. *)
Definition earlier : state :=
  State (Registry 40 2 1 9 4 5 3 2 ∅ 1 ∅) 40 [].

End Demo.

(** ** Structural facts about [json] *)

Section JsonInduction.

Variable P : json -> Prop.
Hypothesis case_null : P JNull.
Hypothesis case_bool : forall b, P (JBool b).
Hypothesis case_num : forall q, P (JNum q).
Hypothesis case_str : forall s, P (JStr s).
Hypothesis case_arr :
  forall items, (forall x, In x items -> P x) -> P (JArr items).
Hypothesis case_obj :
  forall fields, (forall k x, In (k, x) fields -> P x) -> P (JObj fields).

(** Induction that reaches below the items of a list and the values of a
    dict. *)
Fixpoint json_induction (v : json) : P v :=
  match v with
  | JNull => case_null
  | JBool b => case_bool b
  | JNum q => case_num q
  | JStr s => case_str s
  | JArr items =>
      case_arr items
        ((fix below (l : list json) : forall x, In x l -> P x :=
            match l with
            | [] => fun x H => match H with end
            | y :: rest => fun x H =>
                match H with
                | or_introl e => eq_ind y P (json_induction y) x e
                | or_intror H' => below rest x H'
                end
            end) items)
  | JObj fields =>
      case_obj fields
        ((fix below (l : list (string * json)) :
            forall k x, In (k, x) l -> P x :=
            match l with
            | [] => fun k x H => match H with end
            | y :: rest => fun k x H =>
                match H with
                | or_introl e =>
                    eq_ind y (fun p => P (snd p)) (json_induction (snd y)) (k, x) e
                | or_intror H' => below rest k x H'
                end
            end) fields)
  end.

End JsonInduction.

Lemma eqb_refl (v : json) : Py.eqb v v = true.
Proof.
  induction v as [| b | q | s | items IH | fields IH] using json_induction;
    simpl.
  - reflexivity.
  - destruct b; reflexivity.
  - apply bool_decide_eq_true; reflexivity.
  - apply String.eqb_refl.
  - induction items as [| x rest IHrest]; [reflexivity |].
    rewrite (IH x (or_introl eq_refl)). simpl.
    apply IHrest. intros y Hy. apply IH. right; exact Hy.
  - induction fields as [| [k x] rest IHrest]; [reflexivity |].
    rewrite String.eqb_refl, (IH k x (or_introl eq_refl)). simpl.
    apply IHrest. intros l y Hy. apply (IH l). right; exact Hy.
Qed.

(** Two lists that [==] accepts have the same length. *)
Lemma eqb_arr_length (xs ys : list json) :
  Py.eqb (JArr xs) (JArr ys) = true -> length xs = length ys.
Proof.
  revert ys. induction xs as [| x xs IH]; intros [| y ys]; simpl;
    try discriminate; [reflexivity |].
  intros H. apply andb_prop in H as [_ H]. f_equal. apply IH. exact H.
Qed.

(** A list filtered from [l] is [==] to [l] exactly when nothing was
    dropped. *)
Lemma eqb_filter (p : json -> bool) (l : list json) :
  Py.eqb (JArr (List.filter p l)) (JArr l) = forallb p l.
Proof.
  induction l as [| x l IH]; [reflexivity |].
  cbn [List.filter forallb]. destruct (p x) eqn:Hp.
  - change (Py.eqb (JArr (x :: List.filter p l)) (JArr (x :: l)))
      with (Py.eqb x x && Py.eqb (JArr (List.filter p l)) (JArr l)).
    rewrite eqb_refl, IH. reflexivity.
  - cbn [andb].
    destruct (Py.eqb (JArr (List.filter p l)) (JArr (x :: l))) eqn:E;
      [| reflexivity].
    apply eqb_arr_length in E. simpl in E.
    pose proof (List.filter_length_le p l). lia.
Qed.

Lemma forallb_filter_id {A} (p : A -> bool) (l : list A) :
  forallb p l = true <-> List.filter p l = l.
Proof.
  induction l as [| x l IH]; simpl; [tauto |].
  destruct (p x) eqn:Hp; simpl.
  - rewrite IH. split; [intros ->; reflexivity | intros H; injection H; auto].
  - split; [discriminate |]. intros H.
    pose proof (List.filter_length_le p l) as Hle. rewrite H in Hle.
    simpl in Hle. lia.
Qed.

(** ** The API client *)

Section Client.

Variable api_url : string.
Variable upstream : nat -> string -> reply.

Local Abbreviation request := (request_with_counting api_url upstream).

Lemma request_with_counting_run (path : string) (s : state) :
  request path s =
    (match upstream (sent s) (api_url ++ path) with
     | NoResponse => Raise TransportError
     | Responded resp => Return resp
     end,
     State (counted (upstream (sent s) (api_url ++ path)) (metrics s))
           (S (sent s)) (logged s)).
Proof.
  unfold request_with_counting, bind, update, requests_get, ret, counted.
  simpl. destruct (upstream (sent s) (api_url ++ path)) as [| resp];
    [reflexivity |].
  destruct (status_code resp =? 200)%Z; reflexivity.
Qed.

Lemma gauges_counted (r : reply) (m : registry) :
  gauges_of (counted r m) = gauges_of m.
Proof.
  destruct r as [| resp]; simpl; [reflexivity |].
  destruct (status_code resp =? 200)%Z; reflexivity.
Qed.

(** C7: every call of [request_with_counting] adds exactly one to
    [oncall_api_requests_total], whatever comes back, a transport error
    included; it adds exactly one to [oncall_api_requests_failed_total]
    when a response came back with a status other than 200, and nothing
    otherwise.  No gauge is touched. *)
Theorem request_with_counting_counters (path : string) (s : state) :
  let r := upstream (sent s) (api_url ++ path) in
  let s' := snd (request path s) in
  ONCALL_API_REQUESTS_TOTAL (metrics s')
    = S (ONCALL_API_REQUESTS_TOTAL (metrics s))
  /\ ONCALL_API_REQUESTS_FAILED_TOTAL (metrics s')
     = ONCALL_API_REQUESTS_FAILED_TOTAL (metrics s)
       + match r with
         | Responded resp => if (status_code resp =? 200)%Z then 0 else 1
         | NoResponse => 0
         end
  /\ gauges_of (metrics s') = gauges_of (metrics s)
  /\ fst (request path s)
     = match r with
       | Responded resp => Return resp
       | NoResponse => Raise TransportError
       end.
Proof.
  cbv zeta. rewrite request_with_counting_run. cbn [fst snd metrics].
  rewrite gauges_counted.
  destruct (upstream (sent s) (api_url ++ path)) as [| resp]; simpl.
  - repeat split; lia.
  - destruct (status_code resp =? 200)%Z; simpl; repeat split; lia.
Qed.

End Client.

(** ** The health and user updaters *)

Section Updaters.

Variable api_url : string.
Variable upstream : nat -> string -> reply.
Variable repr : json -> string.

Local Abbreviation health' := (health api_url upstream).
Local Abbreviation users' := (number_of_users_without_contacts api_url upstream).

Lemma health_run (s : state) :
  health' s =
    let r := upstream (sent s) (api_url ++ "/") in
    match r with
    | NoResponse =>
        (Raise TransportError,
         State (counted r (metrics s)) (S (sent s)) (logged s))
    | Responded resp =>
        (Return tt,
         State (Reg.set_health_status
                  (if (status_code resp =? 200)%Z then 1 else 0)
                  (counted r (metrics s)))
               (S (sent s)) (logged s))
    end.
Proof.
  unfold health, bind. rewrite request_with_counting_run. cbv zeta.
  destruct (upstream (sent s) (api_url ++ "/")) as [| resp]; [reflexivity |].
  destruct (status_code resp =? 200)%Z; reflexivity.
Qed.

(** C2, as amended: for every response to the probe of the root path,
    [health] sets [oncall_health_status] to 1 when the status code is
    200 and to 0 for any other status code. *)
Theorem health_status_200 (s : state) (resp : response) :
  upstream (sent s) (api_url ++ "/") = Responded resp ->
  fst (health' s) = Return tt
  /\ ONCALL_HEALTH_STATUS (metrics (snd (health' s)))
     = (if (status_code resp =? 200)%Z then 1 else 0)%Z.
Proof.
  intros Hup. rewrite health_run, Hup. cbv zeta. simpl. split; reflexivity.
Qed.

(** *** Users *)

Lemma users_step_shape (user : json) (a b : nat) :
  Shape.user user = true ->
  users_step user (a, b)
  = Ok (a + b2n (Spec.without_contacts user),
        b + b2n (Spec.without_phone user "contacts")).
Proof.
  unfold Shape.user, users_step, lacks_both, Spec.without_contacts,
    Spec.without_phone, Spec.mapping.
  destruct (Py.getitem user "name") as [name |]; [| discriminate].
  destruct (Py.getitem user "contacts") as [[| | | | | c] |];
    try discriminate.
  intros _. cbn [res_bind Py.truthy Py.contains].
  destruct c as [| kv c]; cbn [length Nat.eqb negb res_bind b2n].
  - cbn. do 2 f_equal; lia.
  - destruct (Py.dict_has "call" (kv :: c)); cbn [res_bind negb andb b2n].
    + do 2 f_equal; lia.
    + destruct (Py.dict_has "sms" (kv :: c)); cbn; do 2 f_equal; lia.
Qed.

Lemma users_loop_shape (users : list json) (a b : nat) :
  forallb Shape.user users = true ->
  users_loop users (a, b)
  = Ok (a + length (List.filter Spec.without_contacts users),
        b + length (List.filter
                      (fun u => Spec.without_phone u "contacts") users)).
Proof.
  revert a b. induction users as [| user users IH]; intros a b Hall.
  - simpl. do 2 f_equal; lia.
  - cbn [forallb] in Hall. apply andb_prop in Hall as [Hu Hall].
    cbn [users_loop]. rewrite (users_step_shape user a b Hu).
    cbn [res_bind]. rewrite (IH _ _ Hall). cbn [List.filter].
    destruct (Spec.without_contacts user),
      (Spec.without_phone user "contacts"); cbn [b2n length];
      do 2 f_equal; lia.
Qed.

Lemma users_run_failed (s : state) (resp : response) :
  upstream (sent s) (api_url ++ "/api/v0/users") = Responded resp ->
  (status_code resp =? 200)%Z = false ->
  users' s
  = (Return tt,
     State (Reg.inc_requests_failed_total (Reg.inc_requests_total (metrics s)))
           (S (sent s)) (logged s)).
Proof.
  intros Hup Hst. unfold number_of_users_without_contacts, bind.
  rewrite request_with_counting_run, Hup. cbn [counted]. rewrite Hst.
  reflexivity.
Qed.

(** C4: when the fetch of the user list comes back with a status other
    than 200, [number_of_users_without_contacts] returns without raising
    and writes none of its gauges: [oncall_users_total],
    [oncall_users_without_contacts_gauge] and [oncall_users_without_phone]
    keep their previous values, as does every other gauge. *)
Theorem users_fetch_failed_keeps_gauges (s : state) (resp : response) :
  upstream (sent s) (api_url ++ "/api/v0/users") = Responded resp ->
  status_code resp <> 200%Z ->
  let s' := snd (users' s) in
  fst (users' s) = Return tt
  /\ ONCALL_USERS_TOTAL (metrics s') = ONCALL_USERS_TOTAL (metrics s)
  /\ ONCALL_USERS_WITHOUT_CONTACTS_GAUGE (metrics s')
     = ONCALL_USERS_WITHOUT_CONTACTS_GAUGE (metrics s)
  /\ ONCALL_USERS_WITHOUT_PHONE_NUMBER (metrics s')
     = ONCALL_USERS_WITHOUT_PHONE_NUMBER (metrics s)
  /\ gauges_of (metrics s') = gauges_of (metrics s).
Proof.
  intros Hup Hst. apply Z.eqb_neq in Hst.
  cbv zeta. rewrite (users_run_failed s resp Hup Hst).
  repeat split; reflexivity.
Qed.

(** C3: when the user list comes back with status 200 as a list of users
    of the documented shape, [number_of_users_without_contacts] sets
    [oncall_users_total] to the length of the list,
    [oncall_users_without_contacts_gauge] to the number of users whose
    contacts mapping is empty and [oncall_users_without_phone] to the
    number of users whose contacts mapping has neither key [call] nor key
    [sms].  The two counts are independent: the loop body counts a user
    with empty contacts in both and a user whose only contact is an
    e-mail address in the second only. *)
Theorem users_gauges (s : state) (resp : response) (users : list json) :
  upstream (sent s) (api_url ++ "/api/v0/users") = Responded resp ->
  status_code resp = 200%Z ->
  payload resp = Some (JArr users) ->
  forallb Shape.user users = true ->
  let s' := snd (users' s) in
  (fst (users' s) = Return tt
   /\ ONCALL_USERS_TOTAL (metrics s') = Z.of_nat (length users)
   /\ ONCALL_USERS_WITHOUT_CONTACTS_GAUGE (metrics s')
      = Z.of_nat (length (List.filter Spec.without_contacts users))
   /\ ONCALL_USERS_WITHOUT_PHONE_NUMBER (metrics s')
      = Z.of_nat (length (List.filter
                            (fun u => Spec.without_phone u "contacts") users)))
  /\ (forall name a b,
        users_step (JObj [("name", name); ("contacts", JObj [])]) (a, b)
        = Ok (S a, S b))
  /\ (forall name x a b,
        users_step
          (JObj [("name", name); ("contacts", JObj [("email", x)])]) (a, b)
        = Ok (a, S b)).
Proof.
  intros Hup Hst Hbody Hall. cbv zeta. split; [| split; reflexivity].
  unfold number_of_users_without_contacts, bind.
  rewrite request_with_counting_run, Hup. cbn [counted].
  rewrite Hst. cbn [Z.eqb Pos.eqb negb]. unfold resp_json. rewrite Hbody.
  cbn [ret lift Py.len Py.iter update].
  rewrite (users_loop_shape users 0 0 Hall). cbn.
  repeat split; reflexivity.
Qed.

End Updaters.

(** ** The team updater *)

Section Teams.

Variable api_url : string.
Variable upstream : nat -> string -> reply.
Variable repr : json -> string.

Local Abbreviation slot_step' := (slot_step repr).
Local Abbreviation team_step' := (team_step api_url upstream repr).
Local Abbreviation teams_loop' := (teams_loop api_url upstream repr).
Local Abbreviation teams' := (teams api_url upstream repr).
Local Abbreviation summary_url t :=
  (api_url ++ "/api/v0/teams/" ++ str repr t ++ "/summary").

Lemma lacks_both_member (m : json) :
  Shape.member m = true ->
  lacks_both m "user_contacts" "call" "sms"
  = Ok (Spec.without_phone m "user_contacts").
Proof.
  unfold Shape.member, lacks_both, Spec.without_phone, Spec.mapping.
  destruct (Py.getitem m "user_contacts") as [[| | | | | c] |];
    try discriminate.
  intros _. cbn [res_bind Py.contains].
  destruct (Py.dict_has "call" c); reflexivity.
Qed.

Lemma comprehension_members (l : list json) :
  forallb Shape.member l = true ->
  Py.comprehension
    (fun member => lacks_both member "user_contacts" "call" "sms") l
  = Ok (List.filter (fun m => Spec.without_phone m "user_contacts") l).
Proof.
  induction l as [| m l IH]; intros Hall; [reflexivity |].
  cbn [forallb] in Hall. apply andb_prop in Hall as [Hm Hall].
  cbn [Py.comprehension List.filter].
  rewrite (lacks_both_member m Hm), (IH Hall). reflexivity.
Qed.

Lemma bool_decide_filter (p : json -> bool) (l : list json) :
  bool_decide (List.filter p l = l) = forallb p l.
Proof.
  destruct (forallb p l) eqn:E.
  - apply bool_decide_eq_true. apply forallb_filter_id. exact E.
  - apply bool_decide_eq_false. intros H.
    apply forallb_filter_id in H. congruence.
Qed.

(** One turn of the loop over the slots, on a slot of the documented
    shape. *)
Lemma slot_step_shape (team_name team_data : json) (event_time : string)
    (flags : bool * bool) (s : state) (slot : json) :
  Py.getitem team_data event_time = Ok slot ->
  Shape.slot slot = true ->
  slot_step' team_name team_data event_time flags s
  = (Return (fst flags || Spec.slot_understaffed slot,
             snd flags || Spec.slot_unreachable slot),
     State (slot_written (str repr team_name) event_time slot (metrics s))
           (sent s) (logged s)).
Proof.
  intros Hget Hshape. destruct flags as [u r].
  unfold slot_step, bind, lift. rewrite Hget.
  unfold Shape.slot in Hshape.
  unfold slot_written, Spec.slot_understaffed, Spec.slot_unreachable,
    Spec.staff_count, Spec.unreachable_count, Spec.staffed.
  destruct (Py.truthy slot) eqn:Htruthy; cbn [negb fst snd andb].
  - cbn [orb] in Hshape. unfold Shape.event in Hshape.
    unfold Spec.members_without_number, Spec.members.
    destruct (Py.getitem slot "primary") as [[| | | | p |] |];
      try discriminate.
    destruct (Py.getitem slot "secondary") as [[| | | | q |] |];
      try discriminate.
    rewrite <- forallb_app in Hshape.
    cbn [Py.add Py.iter Py.len].
    rewrite (comprehension_members (p ++ q) Hshape).
    cbn [update ret metrics sent logged].
    rewrite eqb_filter, bool_decide_filter.
    destruct (Nat.ltb (length (p ++ q)) 2),
      (forallb (fun m => Spec.without_phone m "user_contacts") (p ++ q)),
      u, r; reflexivity.
  - cbn [update ret metrics sent logged]. rewrite !orb_false_r.
    reflexivity.
Qed.

(** A team whose summary request is answered with a status other than
    200 is passed over. *)
Lemma team_step_failed (team_name : json) (acc : nat * nat) (s : state)
    (resp : response) :
  upstream (sent s) (summary_url team_name) = Responded resp ->
  (status_code resp =? 200)%Z = false ->
  team_step' team_name acc s
  = (Return acc,
     State (Reg.inc_requests_failed_total (Reg.inc_requests_total (metrics s)))
           (S (sent s)) (logged s)).
Proof.
  intros Hup Hst. destruct acc as [u r]. unfold team_step, bind.
  rewrite request_with_counting_run, Hup. cbn [counted]. rewrite Hst.
  reflexivity.
Qed.

(** A team whose summary arrives in the documented shape. *)
Lemma team_step_fetched (team_name : json) (u r : nat) (s : state)
    (resp : response) (summary : json) :
  upstream (sent s) (summary_url team_name) = Responded resp ->
  status_code resp = 200%Z ->
  payload resp = Some summary ->
  Shape.summary summary = true ->
  team_step' team_name (u, r) s
  = (Return (u + b2n (Spec.team_understaffed summary),
             r + b2n (Spec.team_unreachable summary)),
     State (team_processed (str repr team_name) (Responded resp) (metrics s))
           (S (sent s)) (logged s)).
Proof.
  intros Hup Hst Hbody Hshape. unfold team_step, bind.
  rewrite request_with_counting_run, Hup.
  unfold team_processed, Spec.fetched. cbn [counted]. rewrite Hst.
  cbn [Z.eqb Pos.eqb negb]. unfold resp_json. rewrite Hbody. cbn [ret].
  unfold Shape.summary in Hshape.
  unfold Spec.team_understaffed, Spec.team_unreachable, Spec.slot_of.
  destruct (Py.getitem summary "current") as [cur |] eqn:Hcur;
    [| discriminate].
  destruct (Py.getitem summary "next") as [nxt |] eqn:Hnxt;
    [| discriminate].
  apply andb_prop in Hshape as [Hc Hn].
  cbn [slots_loop]. unfold bind.
  rewrite (slot_step_shape _ _ _ _ _ cur Hcur Hc).
  rewrite (slot_step_shape _ _ _ _ _ nxt Hnxt Hn).
  cbn [ret fst snd orb metrics sent logged].
  destruct (Spec.slot_understaffed cur), (Spec.slot_understaffed nxt),
    (Spec.slot_unreachable cur), (Spec.slot_unreachable nxt);
    cbn [orb b2n]; unfold ret; rewrite ?Nat.add_0_r, ?Nat.add_1_r;
    reflexivity.
Qed.

Lemma team_step_answered (team_name : json) (u r : nat) (s : state) :
  let rep := upstream (sent s) (summary_url team_name) in
  summary_reply_ok rep = true ->
  team_step' team_name (u, r) s
  = (Return (u + b2n (Spec.counts_understaffed rep),
             r + b2n (Spec.counts_unreachable rep)),
     State (team_processed (str repr team_name) rep (metrics s))
           (S (sent s)) (logged s)).
Proof.
  cbv zeta. unfold summary_reply_ok.
  destruct (upstream (sent s) (summary_url team_name)) as [| resp] eqn:Hup;
    [discriminate |].
  destruct (status_code resp =? 200)%Z eqn:Hst.
  - destruct (payload resp) as [summary |] eqn:Hbody; [| discriminate].
    intros Hshape. apply Z.eqb_eq in Hst.
    rewrite (team_step_fetched _ _ _ _ resp summary Hup Hst Hbody Hshape).
    unfold Spec.counts_understaffed, Spec.counts_unreachable, Spec.fetched.
    rewrite Hst, Hbody. reflexivity.
  - intros _. rewrite (team_step_failed _ _ _ resp Hup Hst).
    unfold team_processed, Spec.counts_understaffed,
      Spec.counts_unreachable, Spec.fetched.
    rewrite Hst. cbn [counted b2n]. rewrite Hst, !Nat.add_0_r.
    reflexivity.
Qed.

(** The whole loop over the teams, when every summary request is
    answered and every summary has the documented shape. *)
Lemma teams_loop_answered (teams : list json) (u r : nat) (s : state) :
  let reps := answers api_url upstream repr (sent s) teams in
  forallb summary_reply_ok (map snd reps) = true ->
  teams_loop' teams (u, r) s
  = (Return
       (u + length (List.filter Spec.counts_understaffed (map snd reps)),
        r + length (List.filter Spec.counts_unreachable (map snd reps))),
     State (teams_processed reps (metrics s))
           (length teams + sent s) (logged s)).
Proof.
  cbv zeta. revert u r s.
  induction teams as [| t teams IH]; intros u r s Hall.
  - simpl. unfold ret. rewrite !Nat.add_0_r. destruct s; reflexivity.
  - cbn [answers map forallb] in Hall.
    apply andb_prop in Hall as [Ht Hall].
    cbn [teams_loop]. unfold bind.
    rewrite (team_step_answered t u r s Ht).
    rewrite IH by exact Hall.
    cbn [answers map List.filter teams_processed metrics sent logged length].
    destruct (Spec.counts_understaffed _), (Spec.counts_unreachable _);
      cbn [b2n length];
      (f_equal; [f_equal; f_equal; lia | f_equal; lia]).
Qed.

Lemma answers_app (n : nat) (ts1 ts2 : list json) :
  answers api_url upstream repr n (ts1 ++ ts2)
  = (answers api_url upstream repr n ts1
     ++ answers api_url upstream repr (length ts1 + n) ts2)%list.
Proof.
  revert n. induction ts1 as [| t ts1 IH]; intros n; [reflexivity |].
  cbn [app answers length]. rewrite IH. do 3 f_equal. lia.
Qed.

Lemma answers_labels (n : nat) (ts : list json) :
  map fst (answers api_url upstream repr n ts) = map (str repr) ts.
Proof.
  revert n. induction ts as [| t ts IH]; intros n; [reflexivity |].
  cbn [answers map fst]. rewrite IH. reflexivity.
Qed.

Lemma teams_processed_app (a1 a2 : list (string * reply)) (m : registry) :
  teams_processed (a1 ++ a2)%list m
  = teams_processed a2 (teams_processed a1 m).
Proof.
  revert m. induction a1 as [| [l r] a1 IH]; intros m; [reflexivity |].
  cbn [app teams_processed]. apply IH.
Qed.

(** *** The labelled series *)

Lemma counted_series (r : reply) (m : registry) :
  ONCALL_TEAM_ROTATION_STAFF_COUNT (counted r m)
  = ONCALL_TEAM_ROTATION_STAFF_COUNT m
  /\ ONCALL_TEAM_ROTATION_UNREACHABLE_BY_PHONE_COUNT (counted r m)
     = ONCALL_TEAM_ROTATION_UNREACHABLE_BY_PHONE_COUNT m.
Proof.
  destruct r as [| resp]; simpl; [split; reflexivity |].
  destruct (status_code resp =? 200)%Z; split; reflexivity.
Qed.

(** Dealing with one team leaves the series of the other teams alone. *)
Lemma team_processed_other (l' : string) (r : reply) (m : registry)
    (l et : string) :
  l' <> l ->
  ONCALL_TEAM_ROTATION_STAFF_COUNT (team_processed l' r m) !! (l, et)
  = ONCALL_TEAM_ROTATION_STAFF_COUNT m !! (l, et)
  /\ ONCALL_TEAM_ROTATION_UNREACHABLE_BY_PHONE_COUNT (team_processed l' r m)
       !! (l, et)
     = ONCALL_TEAM_ROTATION_UNREACHABLE_BY_PHONE_COUNT m !! (l, et).
Proof.
  intros Hne. destruct (counted_series r m) as [Hs Hu].
  unfold team_processed. destruct (Spec.fetched r) as [summary |].
  - unfold slot_written. cbn.
    rewrite !lookup_insert_ne by congruence. rewrite Hs, Hu.
    split; reflexivity.
  - rewrite Hs, Hu. split; reflexivity.
Qed.

(** A team whose summary was fetched has both its slots reported. *)
Lemma team_processed_own (l : string) (r : reply) (m : registry)
    (summary : json) (et : string) :
  Spec.fetched r = Some summary ->
  et = "current" \/ et = "next" ->
  ONCALL_TEAM_ROTATION_STAFF_COUNT (team_processed l r m) !! (l, et)
  = Some (Z.of_nat (Spec.staff_count (Spec.slot_of summary et)))
  /\ ONCALL_TEAM_ROTATION_UNREACHABLE_BY_PHONE_COUNT (team_processed l r m)
       !! (l, et)
     = Some (Z.of_nat (Spec.unreachable_count (Spec.slot_of summary et))).
Proof.
  intros Hf Het. unfold team_processed. rewrite Hf. unfold slot_written.
  cbn. destruct Het as [-> | ->].
  - rewrite !(lookup_insert_ne _ (l, "next") (l, "current")) by congruence.
    rewrite !lookup_insert_eq. split; reflexivity.
  - rewrite !lookup_insert_eq. split; reflexivity.
Qed.

Lemma teams_processed_other (ans : list (string * reply)) (m : registry)
    (l et : string) :
  ~ In l (map fst ans) ->
  ONCALL_TEAM_ROTATION_STAFF_COUNT (teams_processed ans m) !! (l, et)
  = ONCALL_TEAM_ROTATION_STAFF_COUNT m !! (l, et)
  /\ ONCALL_TEAM_ROTATION_UNREACHABLE_BY_PHONE_COUNT (teams_processed ans m)
       !! (l, et)
     = ONCALL_TEAM_ROTATION_UNREACHABLE_BY_PHONE_COUNT m !! (l, et).
Proof.
  revert m. induction ans as [| [l' r] ans IH]; intros m Hnot.
  - split; reflexivity.
  - cbn [map fst In] in Hnot. cbn [teams_processed].
    destruct (IH (team_processed l' r m)) as [Hs Hu]; [tauto |].
    destruct (team_processed_other l' r m l et) as [Hs' Hu']; [tauto |].
    rewrite Hs, Hu, Hs', Hu'. split; reflexivity.
Qed.

(** After the loop, the series of a team that was fetched, and that no
    later team of the list shares its label with, show its two slots. *)
Lemma teams_processed_last (n : nat) (ts1 : list json) (t : json)
    (ts2 : list json) (m : registry) (summary : json) (et : string) :
  ~ In (str repr t) (map (str repr) ts2) ->
  Spec.fetched (upstream (length ts1 + n) (summary_url t)) = Some summary ->
  et = "current" \/ et = "next" ->
  let m' :=
    teams_processed (answers api_url upstream repr n (ts1 ++ t :: ts2)) m in
  ONCALL_TEAM_ROTATION_STAFF_COUNT m' !! (str repr t, et)
  = Some (Z.of_nat (Spec.staff_count (Spec.slot_of summary et)))
  /\ ONCALL_TEAM_ROTATION_UNREACHABLE_BY_PHONE_COUNT m' !! (str repr t, et)
     = Some (Z.of_nat (Spec.unreachable_count (Spec.slot_of summary et))).
Proof.
  intros Hlast Hf Het. cbv zeta.
  rewrite answers_app. cbn [answers]. rewrite teams_processed_app.
  cbn [teams_processed].
  rewrite <- (answers_labels (S (length ts1 + n))) in Hlast.
  destruct (teams_processed_other _
              (team_processed (str repr t)
                 (upstream (length ts1 + n) (summary_url t))
                 (teams_processed (answers api_url upstream repr n ts1) m))
              _ et Hlast) as [Hs Hu].
  rewrite Hs, Hu. apply (team_processed_own _ _ _ summary); assumption.
Qed.

(** The flags, spelled out. *)
Remark team_understaffed_iff (summary : json) :
  Spec.team_understaffed summary = true
  <-> exists et, (et = "current" \/ et = "next")
        /\ Spec.staffed (Spec.slot_of summary et) = true
        /\ length (Spec.members (Spec.slot_of summary et)) < 2.
Proof.
  unfold Spec.team_understaffed, Spec.slot_understaffed.
  rewrite orb_true_iff, !andb_true_iff, !Nat.ltb_lt. split.
  - intros [[H1 H2] | [H1 H2]]; eauto 6.
  - intros [et [[-> | ->] [H1 H2]]]; auto.
Qed.

Remark team_unreachable_iff (summary : json) :
  Spec.team_unreachable summary = true
  <-> exists et, (et = "current" \/ et = "next")
        /\ Spec.staffed (Spec.slot_of summary et) = true
        /\ Spec.members_without_number (Spec.slot_of summary et)
           = Spec.members (Spec.slot_of summary et).
Proof.
  unfold Spec.team_unreachable, Spec.slot_unreachable.
  rewrite orb_true_iff, !andb_true_iff, !bool_decide_eq_true. split.
  - intros [[H1 H2] | [H1 H2]]; eauto 6.
  - intros [et [[-> | ->] [H1 H2]]]; auto.
Qed.

Lemma teams_run_fetched (s : state) (resp : response) (ts : list json) :
  upstream (sent s) (api_url ++ "/api/v0/teams") = Responded resp ->
  status_code resp = 200%Z ->
  payload resp = Some (JArr ts) ->
  let reps := answers api_url upstream repr (S (sent s)) ts in
  forallb summary_reply_ok (map snd reps) = true ->
  teams' s
  = (Return tt,
     State
       (Reg.set_teams_total_unreachable_by_phone
          (Z.of_nat (length (List.filter Spec.counts_unreachable (map snd reps))))
          (Reg.set_teams_understaffed
             (Z.of_nat
                (length (List.filter Spec.counts_understaffed (map snd reps))))
             (teams_processed reps
                (Reg.set_teams_total (Z.of_nat (length ts))
                   (Reg.inc_requests_total (metrics s))))))
       (length ts + S (sent s)) (logged s)).
Proof.
  intros Hup Hst Hbody reps Hall. unfold teams, bind.
  rewrite request_with_counting_run, Hup. cbn [counted]. rewrite Hst.
  cbn [Z.eqb Pos.eqb negb]. unfold resp_json. rewrite Hbody.
  cbn [ret lift Py.len Py.iter update metrics sent logged].
  rewrite teams_loop_answered by exact Hall.
  cbn [fst snd metrics sent logged Nat.add]. reflexivity.
Qed.

(** One turn of the loop over the slots, on an event that is present
    and non-empty. *)
Lemma slot_step_event (t team_data : json) (et : string)
    (flags : bool * bool) (s0 : state) (event : json) :
  Py.getitem team_data et = Ok event ->
  Py.truthy event = true ->
  Shape.event event = true ->
  let out := slot_step' t team_data et flags s0 in
  fst out
  = Return
      (fst flags || Nat.ltb (length (Spec.members event)) 2,
       snd flags
       || bool_decide (Spec.members_without_number event = Spec.members event))
  /\ ONCALL_TEAM_ROTATION_STAFF_COUNT (metrics (snd out)) !! (str repr t, et)
     = Some (Z.of_nat (length (Spec.members event)))
  /\ ONCALL_TEAM_ROTATION_UNREACHABLE_BY_PHONE_COUNT (metrics (snd out))
       !! (str repr t, et)
     = Some (Z.of_nat (length (Spec.members_without_number event))).
Proof.
  intros Hget Htruthy Hshape. cbv zeta.
  assert (Hslot : Shape.slot event = true).
  { unfold Shape.slot. rewrite Hshape. apply orb_true_r. }
  rewrite (slot_step_shape t team_data et flags s0 event Hget Hslot).
  unfold Spec.slot_understaffed, Spec.slot_unreachable, slot_written,
    Spec.staff_count, Spec.unreachable_count, Spec.staffed.
  rewrite Htruthy. cbn.
  rewrite !lookup_insert_eq. repeat split; reflexivity.
Qed.

(** C1: when the team list and every summary request are answered, the
    summaries fetched with status 200 having the documented shape,
    [teams] returns and leaves the registry as follows.  For every team
    whose summary was fetched and every slot among [current] and [next]
    whose event is present and non-empty, the staff-count series of that
    team and slot holds the length of primary followed by secondary, and
    the unreachable-count series holds the number of those members whose
    [user_contacts] has neither key [call] nor key [sms] (the team being
    the last of that name in the list).  The understaffed gauge holds the
    number of fetched teams with a staffed slot of fewer than two
    members, the unreachable-by-phone gauge the number of fetched teams
    with a staffed slot whose unreachable members are all its members.
    Slot by slot, and whatever happens to the other teams: on an event
    that is present and non-empty, the loop body writes these two
    series, raises the understaffed flag when the members are fewer than
    two and the unreachable-by-phone flag when the unreachable members
    equal the member list, and otherwise hands on the flags it got. *)
Theorem teams_gauges (s : state) (resp : response) (ts : list json) :
  upstream (sent s) (api_url ++ "/api/v0/teams") = Responded resp ->
  status_code resp = 200%Z ->
  payload resp = Some (JArr ts) ->
  forallb summary_reply_ok
    (summaries api_url upstream repr (S (sent s)) ts) = true ->
  let s' := snd (teams' s) in
  let reps := summaries api_url upstream repr (S (sent s)) ts in
  fst (teams' s) = Return tt
  /\ ONCALL_TEAMS_UNDERSTAFFED (metrics s')
     = Z.of_nat (length (List.filter Spec.counts_understaffed reps))
  /\ ONCALL_TEAMS_TOTAL_UNREACHABLE_BY_PHONE (metrics s')
     = Z.of_nat (length (List.filter Spec.counts_unreachable reps))
  /\ (forall (ts1 : list json) (t : json) (ts2 : list json)
             (summary : json) (et : string),
       ts = (ts1 ++ t :: ts2)%list ->
       ~ In (str repr t) (map (str repr) ts2) ->
       Spec.fetched (upstream (S (sent s) + length ts1) (summary_url t))
       = Some summary ->
       et = "current" \/ et = "next" ->
       Spec.staffed (Spec.slot_of summary et) = true ->
       ONCALL_TEAM_ROTATION_STAFF_COUNT (metrics s') !! (str repr t, et)
       = Some (Z.of_nat (length (Spec.members (Spec.slot_of summary et))))
       /\ ONCALL_TEAM_ROTATION_UNREACHABLE_BY_PHONE_COUNT (metrics s')
            !! (str repr t, et)
          = Some (Z.of_nat
                    (length (Spec.members_without_number
                               (Spec.slot_of summary et)))))
  /\ (forall (t team_data : json) (et : string) (flags : bool * bool)
             (s0 : state) (event : json),
        Py.getitem team_data et = Ok event ->
        Py.truthy event = true ->
        Shape.event event = true ->
        let out := slot_step' t team_data et flags s0 in
        fst out
        = Return
            (fst flags || Nat.ltb (length (Spec.members event)) 2,
             snd flags
             || bool_decide
                  (Spec.members_without_number event = Spec.members event))
        /\ ONCALL_TEAM_ROTATION_STAFF_COUNT (metrics (snd out))
             !! (str repr t, et)
           = Some (Z.of_nat (length (Spec.members event)))
        /\ ONCALL_TEAM_ROTATION_UNREACHABLE_BY_PHONE_COUNT (metrics (snd out))
             !! (str repr t, et)
           = Some (Z.of_nat (length (Spec.members_without_number event)))).
Proof.
  intros Hup Hst Hbody Hall. cbv zeta. unfold summaries in *.
  rewrite (teams_run_fetched s resp ts Hup Hst Hbody Hall).
  cbn [fst snd metrics].
  split; [reflexivity | split; [reflexivity | split; [reflexivity |]]].
  split; [| apply slot_step_event].
  intros ts1 t ts2 summary et -> Hlast Hf Het Hstaffed.
  replace (S (sent s) + length ts1) with (length ts1 + S (sent s))
    in Hf by lia.
  destruct (teams_processed_last (S (sent s)) ts1 t ts2
              (Reg.set_teams_total
                 (Z.of_nat (length (ts1 ++ t :: ts2)))
                 (Reg.inc_requests_total (metrics s)))
              summary et Hlast Hf Het) as [Hs Hu].
  unfold Spec.staff_count, Spec.unreachable_count in Hs, Hu.
  rewrite Hstaffed in Hs, Hu. split; [exact Hs | exact Hu].
Qed.

(** C5: a team whose summary request is answered with a status other than
    200 gets no update: no gauge and no labelled series is written for it,
    the two local counters behind the rollups go on unchanged, and the
    loop carries on with the teams that follow. *)
Theorem team_fetch_failed_skips (t : json) (rest : list json)
    (acc : nat * nat) (s : state) (resp : response) :
  upstream (sent s) (summary_url t) = Responded resp ->
  status_code resp <> 200%Z ->
  let s' := snd (team_step' t acc s) in
  fst (team_step' t acc s) = Return acc
  /\ gauges_of (metrics s') = gauges_of (metrics s)
  /\ teams_loop' (t :: rest) acc s = teams_loop' rest acc s'.
Proof.
  intros Hup Hst. apply Z.eqb_neq in Hst. cbv zeta.
  cbn [teams_loop]. unfold bind.
  rewrite (team_step_failed t acc s resp Hup Hst).
  repeat split; reflexivity.
Qed.

(** C6: for a team whose summary has [current = null] and [next = null],
    the staff-count and the unreachable-count series of both slots are
    set to 0 and the two local counters behind the rollups go on
    unchanged: the team adds nothing to either rollup. *)
Theorem team_without_rotations (t : json) (acc : nat * nat) (s : state)
    (resp : response) (summary : json) :
  upstream (sent s) (summary_url t) = Responded resp ->
  status_code resp = 200%Z ->
  payload resp = Some summary ->
  Py.getitem summary "current" = Ok JNull ->
  Py.getitem summary "next" = Ok JNull ->
  let m' := metrics (snd (team_step' t acc s)) in
  fst (team_step' t acc s) = Return acc
  /\ ONCALL_TEAM_ROTATION_STAFF_COUNT m' !! (str repr t, "current") = Some 0%Z
  /\ ONCALL_TEAM_ROTATION_UNREACHABLE_BY_PHONE_COUNT m' !! (str repr t, "current")
     = Some 0%Z
  /\ ONCALL_TEAM_ROTATION_STAFF_COUNT m' !! (str repr t, "next") = Some 0%Z
  /\ ONCALL_TEAM_ROTATION_UNREACHABLE_BY_PHONE_COUNT m' !! (str repr t, "next")
     = Some 0%Z.
Proof.
  intros Hup Hst Hbody Hcur Hnxt. destruct acc as [u r]. cbv zeta.
  assert (Hshape : Shape.summary summary = true).
  { unfold Shape.summary. rewrite Hcur, Hnxt. reflexivity. }
  rewrite (team_step_fetched t u r s resp summary Hup Hst Hbody Hshape).
  cbn [fst snd metrics].
  assert (Hf : Spec.fetched (Responded resp) = Some summary).
  { unfold Spec.fetched. rewrite Hst. exact Hbody. }
  destruct (team_processed_own (str repr t) _ (metrics s) summary "current"
              Hf (or_introl eq_refl)) as [Hc1 Hc2].
  destruct (team_processed_own (str repr t) _ (metrics s) summary "next"
              Hf (or_intror eq_refl)) as [Hn1 Hn2].
  unfold Spec.slot_of in Hc1, Hc2, Hn1, Hn2.
  rewrite Hcur in Hc1, Hc2. rewrite Hnxt in Hn1, Hn2.
  unfold Spec.team_understaffed, Spec.team_unreachable, Spec.slot_of.
  rewrite Hcur, Hnxt. cbn [Spec.slot_understaffed Spec.slot_unreachable
    Spec.staffed Py.truthy andb orb b2n]. rewrite !Nat.add_0_r.
  repeat split; assumption.
Qed.

(** A value with an item under some key is a non-empty dict, hence
    truthy. *)
Lemma getitem_truthy (v : json) (k : string) (x : json) :
  Py.getitem v k = Ok x -> Py.truthy v = true.
Proof.
  destruct v as [| | | | | fields]; try discriminate.
  destruct fields; [discriminate | reflexivity].
Qed.

Lemma empty_event_flags (event : json) :
  Py.getitem event "primary" = Ok (JArr []) ->
  Py.getitem event "secondary" = Ok (JArr []) ->
  Shape.slot event = true
  /\ Spec.staff_count event = 0
  /\ Spec.unreachable_count event = 0
  /\ Spec.slot_understaffed event = true
  /\ Spec.slot_unreachable event = true.
Proof.
  intros Hp Hq. pose proof (getitem_truthy _ _ _ Hp) as Ht.
  unfold Shape.slot, Shape.event, Spec.staff_count, Spec.unreachable_count,
    Spec.slot_understaffed, Spec.slot_unreachable,
    Spec.members_without_number, Spec.members, Spec.staffed.
  rewrite Hp, Hq, Ht. cbn. repeat split; reflexivity.
Qed.

(** C10: a slot whose event is present with an empty primary and an empty
    secondary list is not taken for an empty slot.  The loop over the
    slots reports 0 staff and 0 unreachable members for it and raises
    both flags, whatever they were; the team is then counted in both
    local counters behind the rollups.  A falsy slot value, [null] for
    one, leaves the flags as they were. *)
Theorem empty_event_counts_in_both_rollups (t : json) (u r : nat)
    (s : state) (resp : response) (summary event : json) (et : string) :
  upstream (sent s) (summary_url t) = Responded resp ->
  status_code resp = 200%Z ->
  payload resp = Some summary ->
  Shape.summary summary = true ->
  et = "current" \/ et = "next" ->
  Py.getitem summary et = Ok event ->
  Py.getitem event "primary" = Ok (JArr []) ->
  Py.getitem event "secondary" = Ok (JArr []) ->
  let m' := metrics (snd (team_step' t (u, r) s)) in
  (forall flags s0,
      fst (slot_step' t summary et flags s0) = Return (true, true))
  /\ ONCALL_TEAM_ROTATION_STAFF_COUNT m' !! (str repr t, et) = Some 0%Z
  /\ ONCALL_TEAM_ROTATION_UNREACHABLE_BY_PHONE_COUNT m' !! (str repr t, et)
     = Some 0%Z
  /\ fst (team_step' t (u, r) s) = Return (S u, S r)
  /\ (forall et' v flags s0,
        Py.getitem summary et' = Ok v ->
        Py.truthy v = false ->
        fst (slot_step' t summary et' flags s0) = Return flags).
Proof.
  intros Hup Hst Hbody Hshape Het Hget Hp Hq. cbv zeta.
  destruct (empty_event_flags event Hp Hq) as (Hslot & Hn & Hw & Hu & Hr).
  assert (Hf : Spec.fetched (Responded resp) = Some summary).
  { unfold Spec.fetched. rewrite Hst. exact Hbody. }
  assert (Hof : Spec.slot_of summary et = event).
  { unfold Spec.slot_of. rewrite Hget. reflexivity. }
  rewrite (team_step_fetched t u r s resp summary Hup Hst Hbody Hshape).
  cbn [fst snd metrics].
  destruct (team_processed_own (str repr t) _ (metrics s) summary et Hf Het)
    as [Hs1 Hs2].
  rewrite Hof in Hs1, Hs2. rewrite Hn in Hs1. rewrite Hw in Hs2.
  split; [| split; [exact Hs1 | split; [exact Hs2 | split]]].
  - intros [fu fr] s0.
    rewrite (slot_step_shape t summary et (fu, fr) s0 event Hget Hslot).
    cbn [fst snd]. rewrite Hu, Hr, !orb_true_r. reflexivity.
  - assert (Spec.team_understaffed summary = true
            /\ Spec.team_unreachable summary = true) as [-> ->].
    { unfold Spec.team_understaffed, Spec.team_unreachable.
      destruct Het as [-> | ->]; rewrite Hof, Hu, Hr, ?orb_true_r;
        split; reflexivity. }
    cbn [b2n]. rewrite !Nat.add_1_r. reflexivity.
  - intros et' v [fu fr] s0 Hv Hfalsy.
    assert (Hslot' : Shape.slot v = true).
    { unfold Shape.slot. rewrite Hfalsy. reflexivity. }
    rewrite (slot_step_shape t summary et' (fu, fr) s0 v Hv Hslot').
    unfold Spec.slot_understaffed, Spec.slot_unreachable, Spec.staffed.
    rewrite Hfalsy. cbn [fst snd andb]. rewrite !orb_false_r. reflexivity.
Qed.

End Teams.

(** ** The scheduler loop *)

Section Scheduler.

Variable api_url : string.
Variable upstream : nat -> string -> reply.
Variable repr : json -> string.

Lemma try_except_run (func : M unit) (s : state) :
  try_except func s = (Return tt, guarded func s).
Proof.
  unfold try_except, guarded. destruct (func s) as [[[] | e] s'];
    reflexivity.
Qed.

Lemma run_pass_run (funcs : list (M unit)) (s : state) :
  run_pass funcs s
  = (Return tt, fold_left (fun st func => guarded func st) funcs s).
Proof.
  revert s. induction funcs as [| func funcs IH]; intros s; [reflexivity |].
  cbn [run_pass fold_left]. unfold bind. rewrite try_except_run. apply IH.
Qed.

(** C8: whatever an updater raises, a payload of an unexpected shape
    included, the wrapper of the scheduler catches and logs it.  A pass
    over any list of updaters therefore never raises and runs every one
    of them, each from the state its predecessor left; and the loop
    completes any number of passes, each one running the three updaters
    of the module. *)
Theorem scheduler_isolates_failures (funcs : list (M unit)) (passes : nat)
    (s : state) :
  (forall func st, fst (try_except func st) = Return tt)
  /\ (forall func st e st',
        func st = (Raise e, st') ->
        snd (try_except func st)
        = State (metrics st') (sent st') (logged st' ++ [e]))
  /\ run_pass funcs s
     = (Return tt, fold_left (fun st func => guarded func st) funcs s)
  /\ main_loop api_url upstream repr passes s
     = (Return tt,
        Nat.iter passes
          (fun st =>
             guarded (teams api_url upstream repr)
               (guarded (number_of_users_without_contacts api_url upstream)
                  (guarded (health api_url upstream) st)))
          s).
Proof.
  split; [| split; [| split]].
  - intros func st. rewrite try_except_run. reflexivity.
  - intros func st e st' Hraise. unfold try_except. rewrite Hraise.
    reflexivity.
  - apply run_pass_run.
  - revert s. induction passes as [| n IH]; intros s; [reflexivity |].
    cbn [main_loop]. unfold bind. rewrite run_pass_run.
    rewrite IH, Nat.iter_succ_r. reflexivity.
Qed.

End Scheduler.

(** ** Running an updater twice against an unchanged service *)

Lemma gauges_ext (r r' : registry) :
  (forall k, read r k = read r' k) -> gauges_of r = gauges_of r'.
Proof.
  intros H. unfold gauges_of.
  pose proof (H HealthStatus) as H1. pose proof (H UsersTotal) as H2.
  pose proof (H UsersWithoutContacts) as H3.
  pose proof (H UsersWithoutPhone) as H4. pose proof (H TeamsTotal) as H5.
  pose proof (H TeamsUnderstaffed) as H6.
  pose proof (H TeamsUnreachableByPhone) as H7.
  cbn [read] in H1, H2, H3, H4, H5, H6, H7.
  assert (ONCALL_TEAM_ROTATION_STAFF_COUNT r
          = ONCALL_TEAM_ROTATION_STAFF_COUNT r') as ->.
  { apply map_eq. intros [t e]. apply (H (RotationStaffCount t e)). }
  assert (ONCALL_TEAM_ROTATION_UNREACHABLE_BY_PHONE_COUNT r
          = ONCALL_TEAM_ROTATION_UNREACHABLE_BY_PHONE_COUNT r') as ->.
  { apply map_eq. intros [t e]. apply (H (RotationUnreachableCount t e)). }
  congruence.
Qed.

Lemma overwrites_id : overwrites (fun r => r).
Proof.
  split; [intros k; right; reflexivity |].
  split; exists 0; reflexivity.
Qed.

Lemma overwrites_compose (w1 w2 : registry -> registry) :
  overwrites w1 -> overwrites w2 -> overwrites (fun r => w2 (w1 r)).
Proof.
  intros (K1 & [c1 T1] & [d1 F1]) (K2 & [c2 T2] & [d2 F2]).
  split; [| split].
  - intros k. destruct (K2 k) as [[v Hv] | Hkeep].
    + left. exists v. intros r. apply Hv.
    + destruct (K1 k) as [[v Hv] | Hkeep1].
      * left. exists v. intros r. rewrite Hkeep. apply Hv.
      * right. intros r. rewrite Hkeep. apply Hkeep1.
  - exists (c2 + c1). intros r. rewrite T2, T1. lia.
  - exists (d2 + d1). intros r. rewrite F2, F1. lia.
Qed.

(** Writing a gauge twice leaves what writing it once leaves. *)
Lemma overwrites_twice (w : registry -> registry) (r : registry) :
  overwrites w -> gauges_of (w (w r)) = gauges_of (w r).
Proof.
  intros (K & _ & _). apply gauges_ext. intros k.
  destruct (K k) as [[v Hv] | Hkeep].
  - rewrite !Hv. reflexivity.
  - apply Hkeep.
Qed.

Ltac overwrites_scalar :=
  split;
  [ intros k; destruct k; cbn;
    solve [ right; intros; reflexivity | left; eexists; intros; reflexivity ]
  | split; solve [ exists 0; intros; reflexivity | exists 1; intros; reflexivity ] ].

Lemma overwrites_inc_requests_total : overwrites Reg.inc_requests_total.
Proof. overwrites_scalar. Qed.

Lemma overwrites_inc_requests_failed_total :
  overwrites Reg.inc_requests_failed_total.
Proof. overwrites_scalar. Qed.

Lemma overwrites_set_health_status v : overwrites (Reg.set_health_status v).
Proof. overwrites_scalar. Qed.

Lemma overwrites_set_users_total v : overwrites (Reg.set_users_total v).
Proof. overwrites_scalar. Qed.

Lemma overwrites_set_users_without_contacts v :
  overwrites (Reg.set_users_without_contacts v).
Proof. overwrites_scalar. Qed.

Lemma overwrites_set_users_without_phone v :
  overwrites (Reg.set_users_without_phone v).
Proof. overwrites_scalar. Qed.

Lemma overwrites_set_teams_total v : overwrites (Reg.set_teams_total v).
Proof. overwrites_scalar. Qed.

Lemma overwrites_set_teams_understaffed v :
  overwrites (Reg.set_teams_understaffed v).
Proof. overwrites_scalar. Qed.

Lemma overwrites_set_teams_total_unreachable_by_phone v :
  overwrites (Reg.set_teams_total_unreachable_by_phone v).
Proof. overwrites_scalar. Qed.

Lemma overwrites_set_team_rotation_staff_count t e v :
  overwrites (Reg.set_team_rotation_staff_count t e v).
Proof.
  split; [| split; exists 0; intros; reflexivity].
  intros k; destruct k as [| | | | | | | t' e' | t' e']; cbn;
    try (right; intros; reflexivity).
  destruct (decide ((t, e) = (t', e'))) as [<- | Hne].
  - left. eexists. intros r. apply lookup_insert_eq.
  - right. intros r. apply lookup_insert_ne. exact Hne.
Qed.

Lemma overwrites_set_team_rotation_unreachable_by_phone_count t e v :
  overwrites (Reg.set_team_rotation_unreachable_by_phone_count t e v).
Proof.
  split; [| split; exists 0; intros; reflexivity].
  intros k; destruct k as [| | | | | | | t' e' | t' e']; cbn;
    try (right; intros; reflexivity).
  destruct (decide ((t, e) = (t', e'))) as [<- | Hne].
  - left. eexists. intros r. apply lookup_insert_eq.
  - right. intros r. apply lookup_insert_ne. exact Hne.
Qed.

Create HintDb overwrites.
#[global] Hint Resolve overwrites_id overwrites_inc_requests_total
  overwrites_inc_requests_failed_total overwrites_set_health_status
  overwrites_set_users_total overwrites_set_users_without_contacts
  overwrites_set_users_without_phone overwrites_set_teams_total
  overwrites_set_teams_understaffed
  overwrites_set_teams_total_unreachable_by_phone
  overwrites_set_team_rotation_staff_count
  overwrites_set_team_rotation_unreachable_by_phone_count : overwrites.

Lemma uniform_ret {A} (a : A) : uniform (ret a).
Proof.
  exists (Return a), (fun r => r), 0. split; [apply overwrites_id |].
  intros [m n l]. reflexivity.
Qed.

Lemma uniform_lift {A} (r : res A) : uniform (lift r).
Proof.
  exists (match r with Ok a => Return a | Err e => Raise e end),
    (fun r => r), 0.
  split; [apply overwrites_id |].
  intros [m n l]. destruct r; reflexivity.
Qed.

Lemma uniform_update (f : registry -> registry) :
  overwrites f -> uniform (update f).
Proof.
  intros Hf. exists (Return tt), f, 0. split; [exact Hf |].
  intros s. reflexivity.
Qed.

Lemma uniform_resp_json (resp : response) : uniform (resp_json resp).
Proof.
  unfold resp_json. destruct (payload resp); [apply uniform_ret |].
  exists (Raise JSONDecodeError), (fun r => r), 0.
  split; [apply overwrites_id |]. intros [m n l]. reflexivity.
Qed.

Lemma uniform_bind {A B} (m : M A) (k : A -> M B) :
  uniform m -> (forall a, uniform (k a)) -> uniform (bind m k).
Proof.
  intros (out & w & n & Hw & Hm) Hk. destruct out as [a | e].
  - destruct (Hk a) as (out' & w' & n' & Hw' & Hka).
    exists out', (fun r => w' (w r)), (n' + n).
    split; [apply overwrites_compose; assumption |].
    intros s. unfold bind. rewrite Hm, Hka. cbn [metrics sent logged].
    rewrite Nat.add_assoc. reflexivity.
  - exists (Raise e), w, n. split; [exact Hw |].
    intros s. unfold bind. rewrite Hm. reflexivity.
Qed.

Ltac uniform_step :=
  lazymatch goal with
  | |- uniform (bind _ _) => apply uniform_bind; [| intros ?]
  | |- uniform (ret _) => apply uniform_ret
  | |- uniform (lift _) => apply uniform_lift
  | |- uniform (update _) => apply uniform_update; auto with overwrites
  | |- uniform (resp_json _) => apply uniform_resp_json
  | |- uniform (if ?b then _ else _) => destruct b
  end.

Section Unchanged.

Variable api_url : string.
(** The service answers a request by its URL alone, whenever it is
    asked. *)
Variable answer : string -> reply.
Variable repr : json -> string.

Local Abbreviation fixed := (fun _ : nat => answer).

Lemma uniform_requests_get (url : string) : uniform (requests_get fixed url).
Proof.
  exists (match answer url with
          | NoResponse => Raise TransportError
          | Responded resp => Return resp
          end), (fun r => r), 1.
  split; [apply overwrites_id |].
  intros s. unfold requests_get. destruct (answer url); reflexivity.
Qed.

Lemma uniform_request_with_counting (path : string) :
  uniform (request_with_counting api_url fixed path).
Proof.
  unfold request_with_counting. uniform_step; [uniform_step |].
  uniform_step; [apply uniform_requests_get |].
  repeat uniform_step.
Qed.

Lemma uniform_health : uniform (health api_url fixed).
Proof.
  unfold health. uniform_step; [apply uniform_request_with_counting |].
  repeat uniform_step.
Qed.

Lemma uniform_users :
  uniform (number_of_users_without_contacts api_url fixed).
Proof.
  unfold number_of_users_without_contacts.
  uniform_step; [apply uniform_request_with_counting |].
  repeat uniform_step.
Qed.

Lemma uniform_slot_step (t td : json) (et : string) (flags : bool * bool) :
  uniform (slot_step repr t td et flags).
Proof.
  unfold slot_step. destruct flags as [u r]. repeat uniform_step.
Qed.

Lemma uniform_slots_loop (t td : json) (ets : list string)
    (flags : bool * bool) :
  uniform (slots_loop repr t td ets flags).
Proof.
  revert flags. induction ets as [| et ets IH]; intros flags;
    cbn [slots_loop]; [apply uniform_ret |].
  uniform_step; [apply uniform_slot_step | apply IH].
Qed.

Lemma uniform_team_step (t : json) (acc : nat * nat) :
  uniform (team_step api_url fixed repr t acc).
Proof.
  unfold team_step. destruct acc as [u r].
  uniform_step; [apply uniform_request_with_counting |].
  uniform_step; [uniform_step |].
  uniform_step; [uniform_step |].
  uniform_step; [apply uniform_slots_loop | uniform_step].
Qed.

Lemma uniform_teams_loop (ts : list json) (acc : nat * nat) :
  uniform (teams_loop api_url fixed repr ts acc).
Proof.
  revert acc. induction ts as [| t ts IH]; intros acc;
    cbn [teams_loop]; [apply uniform_ret |].
  uniform_step; [apply uniform_team_step | apply IH].
Qed.

Lemma uniform_teams : uniform (teams api_url fixed repr).
Proof.
  unfold teams. uniform_step; [apply uniform_request_with_counting |].
  uniform_step; [uniform_step |].
  do 4 (uniform_step; [uniform_step |]).
  uniform_step; [uniform_step |].
  uniform_step; [apply uniform_teams_loop |].
  repeat uniform_step.
Qed.

(** An updater starts with a request, which counts at once. *)
Lemma starts_with_request {A} (path : string)
    (k : response -> M A) (s : state) :
  (forall resp, uniform (k resp)) ->
  ONCALL_API_REQUESTS_TOTAL (metrics s)
  < ONCALL_API_REQUESTS_TOTAL
      (metrics (snd (bind (request_with_counting api_url fixed path) k s))).
Proof.
  intros Hk. unfold bind. rewrite request_with_counting_run.
  destruct (answer (api_url ++ path)) as [| resp].
  - cbn. lia.
  - destruct (Hk resp) as (out & w & n & (_ & [c Hc] & _) & Hrun).
    rewrite Hrun. cbn [snd metrics counted]. rewrite Hc.
    destruct (status_code resp =? 200)%Z; cbn; lia.
Qed.

Lemma uniform_twice {A} (m : M A) (s : state) :
  uniform m ->
  fst (m (snd (m s))) = fst (m s)
  /\ gauges_of (metrics (snd (m (snd (m s)))))
     = gauges_of (metrics (snd (m s)))
  /\ ONCALL_API_REQUESTS_TOTAL (metrics (snd (m (snd (m s)))))
     + ONCALL_API_REQUESTS_TOTAL (metrics s)
     = 2 * ONCALL_API_REQUESTS_TOTAL (metrics (snd (m s))).
Proof.
  intros (out & w & n & Hw & Hrun). rewrite !Hrun. cbn [fst snd metrics].
  split; [reflexivity |]. split; [apply overwrites_twice; exact Hw |].
  destruct Hw as (_ & [c Hc] & _). rewrite !Hc. lia.
Qed.

(** C9: against a service that answers every request the same way, a
    second run of an updater ends as the first did and leaves every
    gauge, labelled series included, at the value the first run left:
    the second run writes exactly the values already there.  The two
    request counters are the API client's, not the updater's: every run
    sends at least one request, so [oncall_api_requests_total] goes on
    counting, by the same amount on each run. *)
Theorem updaters_idempotent_on_gauges (func : M unit) (s : state) :
  In func (updaters api_url fixed repr) ->
  let s1 := snd (func s) in
  let s2 := snd (func s1) in
  fst (func s1) = fst (func s)
  /\ gauges_of (metrics s2) = gauges_of (metrics s1)
  /\ ONCALL_API_REQUESTS_TOTAL (metrics s)
     < ONCALL_API_REQUESTS_TOTAL (metrics s1)
  /\ ONCALL_API_REQUESTS_TOTAL (metrics s2)
     + ONCALL_API_REQUESTS_TOTAL (metrics s)
     = 2 * ONCALL_API_REQUESTS_TOTAL (metrics s1).
Proof.
  intros Hin. cbv zeta.
  assert (Hu : uniform func).
  { destruct Hin as [<- | [<- | [<- | []]]];
      [apply uniform_health | apply uniform_users | apply uniform_teams]. }
  destruct (uniform_twice func s Hu) as (Hout & Hg & Hc).
  split; [exact Hout |]. split; [exact Hg |]. split; [| exact Hc].
  destruct Hin as [<- | [<- | [<- | []]]].
  - apply starts_with_request. intros resp. cbv beta. repeat uniform_step.
  - apply starts_with_request. intros resp. cbv beta. repeat uniform_step.
  - apply starts_with_request. intros resp. cbv beta.
    uniform_step; [uniform_step |].
    do 5 (uniform_step; [uniform_step |]).
    uniform_step; [apply uniform_teams_loop |].
    repeat uniform_step.
Qed.

End Unchanged.

(** ** The updaters at work on the demo service *)

Lemma request_with_counting_example :
  let s' := snd (request_with_counting Demo.api_url Demo.upstream
                   "/api/v0/teams/b/summary" startup) in
  ONCALL_API_REQUESTS_TOTAL (metrics s') = 1
  /\ ONCALL_API_REQUESTS_FAILED_TOTAL (metrics s') = 1.
Proof. vm_compute. split; reflexivity. Qed.

(** A 204 answer is a 2xx answer, and [health] reports the service down. *)
Lemma health_204_counterexample :
  let s' := snd (health Demo.api_url Demo.upstream_204 startup) in
  Demo.upstream_204 (sent startup) (Demo.api_url ++ "/")
  = Responded Demo.no_content
  /\ is_2xx (status_code Demo.no_content) = true
  /\ ONCALL_HEALTH_STATUS (metrics s') = 0%Z
  /\ ONCALL_HEALTH_STATUS (metrics s') <> 1%Z.
Proof. vm_compute. repeat split; try reflexivity. discriminate. Qed.

Lemma health_status_200_witness :
  Demo.upstream (sent startup) (Demo.api_url ++ "/")
  = Responded Demo.front_page
  /\ fst (health Demo.api_url Demo.upstream startup) = Return tt
  /\ ONCALL_HEALTH_STATUS
       (metrics (snd (health Demo.api_url Demo.upstream startup))) = 1%Z.
Proof.
  split; [reflexivity |].
  exact (health_status_200 Demo.api_url Demo.upstream startup
           Demo.front_page eq_refl).
Defined.

Lemma users_gauges_witness :
  let s' :=
    snd (number_of_users_without_contacts Demo.api_url Demo.upstream startup) in
  forallb Shape.user Demo.users = true
  /\ ONCALL_USERS_TOTAL (metrics s') = 3%Z
  /\ ONCALL_USERS_WITHOUT_CONTACTS_GAUGE (metrics s') = 1%Z
  /\ ONCALL_USERS_WITHOUT_PHONE_NUMBER (metrics s') = 2%Z.
Proof.
  cbv zeta. split; [reflexivity |].
  exact (proj2 (proj1 (users_gauges Demo.api_url Demo.upstream startup
                         (Demo.ok (JArr Demo.users)) Demo.users
                         eq_refl eq_refl eq_refl eq_refl))).
Defined.

Lemma users_fetch_failed_keeps_gauges_witness :
  let s := State (Registry 7 0 1 3 1 2 0 0 ∅ 0 ∅) 7 [] in
  let s' :=
    snd (number_of_users_without_contacts Demo.api_url Demo.upstream_503 s) in
  status_code Demo.unavailable <> 200%Z
  /\ fst (number_of_users_without_contacts Demo.api_url Demo.upstream_503 s)
     = Return tt
  /\ ONCALL_USERS_TOTAL (metrics s') = 3%Z
  /\ ONCALL_USERS_WITHOUT_CONTACTS_GAUGE (metrics s') = 1%Z
  /\ ONCALL_USERS_WITHOUT_PHONE_NUMBER (metrics s') = 2%Z
  /\ gauges_of (metrics s') = gauges_of (metrics s).
Proof.
  cbv zeta. split; [discriminate |].
  exact (users_fetch_failed_keeps_gauges Demo.api_url Demo.upstream_503
           (State (Registry 7 0 1 3 1 2 0 0 ∅ 0 ∅) 7 [])
           Demo.unavailable eq_refl ltac:(discriminate)).
Defined.

Lemma teams_gauges_witness :
  let s' := snd (teams Demo.api_url Demo.upstream Demo.repr startup) in
  forallb summary_reply_ok
    (summaries Demo.api_url Demo.upstream Demo.repr 1 Demo.team_names) = true
  /\ fst (teams Demo.api_url Demo.upstream Demo.repr startup) = Return tt
  /\ ONCALL_TEAMS_UNDERSTAFFED (metrics s') = 2%Z
  /\ ONCALL_TEAMS_TOTAL_UNREACHABLE_BY_PHONE (metrics s') = 2%Z
  /\ ONCALL_TEAM_ROTATION_STAFF_COUNT (metrics s') !! ("a", "next")
     = Some 2%Z
  /\ ONCALL_TEAM_ROTATION_UNREACHABLE_BY_PHONE_COUNT (metrics s') !! ("a", "next")
     = Some 2%Z.
Proof.
  cbv zeta. split; [reflexivity |].
  destruct (teams_gauges Demo.api_url Demo.upstream Demo.repr startup
              (Demo.ok (JArr Demo.team_names)) Demo.team_names
              eq_refl eq_refl eq_refl eq_refl) as (H1 & H2 & H3 & H4).
  destruct H4 as [H4 _].
  split; [exact H1 |]. split; [exact H2 |]. split; [exact H3 |].
  apply (H4 [] (JStr "a") [JStr "b"; JStr "c"; JStr "d"] Demo.summary_a "next"
           eq_refl);
    [simpl; intuition discriminate | reflexivity | right; reflexivity
    | reflexivity].
Defined.

Lemma team_fetch_failed_skips_witness :
  let step := team_step Demo.api_url Demo.upstream Demo.repr (JStr "b") (1, 1) in
  status_code Demo.unavailable <> 200%Z
  /\ fst (step startup) = Return (1, 1)
  /\ gauges_of (metrics (snd (step startup))) = gauges_of (metrics startup)
  /\ teams_loop Demo.api_url Demo.upstream Demo.repr
       [JStr "b"; JStr "c"] (1, 1) startup
     = teams_loop Demo.api_url Demo.upstream Demo.repr
         [JStr "c"] (1, 1) (snd (step startup)).
Proof.
  cbv zeta. split; [discriminate |].
  exact (team_fetch_failed_skips Demo.api_url Demo.upstream Demo.repr
           (JStr "b") [JStr "c"] (1, 1) startup Demo.unavailable
           eq_refl ltac:(discriminate)).
Defined.

Lemma team_without_rotations_witness :
  let step := team_step Demo.api_url Demo.upstream Demo.repr (JStr "c") (1, 1) in
  let m' := metrics (snd (step startup)) in
  Py.getitem Demo.summary_c "current" = Ok JNull
  /\ Py.getitem Demo.summary_c "next" = Ok JNull
  /\ fst (step startup) = Return (1, 1)
  /\ ONCALL_TEAM_ROTATION_STAFF_COUNT m' !! ("c", "current") = Some 0%Z
  /\ ONCALL_TEAM_ROTATION_UNREACHABLE_BY_PHONE_COUNT m' !! ("c", "current")
     = Some 0%Z
  /\ ONCALL_TEAM_ROTATION_STAFF_COUNT m' !! ("c", "next") = Some 0%Z
  /\ ONCALL_TEAM_ROTATION_UNREACHABLE_BY_PHONE_COUNT m' !! ("c", "next")
     = Some 0%Z.
Proof.
  cbv zeta. split; [reflexivity |]. split; [reflexivity |].
  exact (team_without_rotations Demo.api_url Demo.upstream Demo.repr
           (JStr "c") (1, 1) startup (Demo.ok Demo.summary_c) Demo.summary_c
           eq_refl eq_refl eq_refl eq_refl eq_refl).
Defined.

Lemma empty_event_counts_in_both_rollups_witness :
  let step := team_step Demo.api_url Demo.upstream Demo.repr (JStr "d") (0, 0) in
  let m' := metrics (snd (step startup)) in
  Shape.summary Demo.summary_d = true
  /\ Py.getitem Demo.summary_d "current" = Ok Demo.empty_event
  /\ Py.getitem Demo.empty_event "primary" = Ok (JArr [])
  /\ Py.getitem Demo.empty_event "secondary" = Ok (JArr [])
  /\ ONCALL_TEAM_ROTATION_STAFF_COUNT m' !! ("d", "current") = Some 0%Z
  /\ ONCALL_TEAM_ROTATION_UNREACHABLE_BY_PHONE_COUNT m' !! ("d", "current")
     = Some 0%Z
  /\ fst (step startup) = Return (1, 1).
Proof.
  cbv zeta. do 4 (split; [reflexivity |]).
  destruct (empty_event_counts_in_both_rollups Demo.api_url Demo.upstream
              Demo.repr (JStr "d") 0 0 startup (Demo.ok Demo.summary_d)
              Demo.summary_d Demo.empty_event "current"
              eq_refl eq_refl eq_refl eq_refl (or_introl eq_refl)
              eq_refl eq_refl eq_refl) as (_ & H1 & H2 & H3 & _).
  split; [exact H1 |]. split; [exact H2 | exact H3].
Defined.

(** Two runs of [health] in a row against the same service: the gauge
    stays, and the request counter of the API client has counted both
    probes. *)
Example health_twice_counts_both_probes :
  let s1 := snd (health Demo.api_url Demo.upstream startup) in
  let s2 := snd (health Demo.api_url Demo.upstream s1) in
  ONCALL_API_REQUESTS_TOTAL (metrics s1) = 1
  /\ ONCALL_API_REQUESTS_TOTAL (metrics s2) = 2
  /\ metrics s2 <> metrics s1.
Proof.
  cbv zeta. split; [reflexivity |]. split; [reflexivity |].
  intros H. apply (f_equal ONCALL_API_REQUESTS_TOTAL) in H.
  vm_compute in H. discriminate.
Qed.

Lemma updaters_idempotent_on_gauges_witness :
  let run := teams Demo.api_url Demo.upstream Demo.repr in
  let s1 := snd (run startup) in
  let s2 := snd (run s1) in
  In run (updaters Demo.api_url Demo.upstream Demo.repr)
  /\ fst (run s1) = fst (run startup)
  /\ gauges_of (metrics s2) = gauges_of (metrics s1)
  /\ ONCALL_API_REQUESTS_TOTAL (metrics startup)
     < ONCALL_API_REQUESTS_TOTAL (metrics s1)
  /\ ONCALL_API_REQUESTS_TOTAL (metrics s2)
     + ONCALL_API_REQUESTS_TOTAL (metrics startup)
     = 2 * ONCALL_API_REQUESTS_TOTAL (metrics s1).
Proof.
  cbv zeta.
  assert (Hin : In (teams Demo.api_url Demo.upstream Demo.repr)
                  (updaters Demo.api_url Demo.upstream Demo.repr)).
  { right; right; left; reflexivity. }
  split; [exact Hin |].
  exact (updaters_idempotent_on_gauges Demo.api_url Demo.answer Demo.repr
           (teams Demo.api_url Demo.upstream Demo.repr) startup Hin).
Defined.

(** Two passes over a service that makes every updater raise: each error
    is logged, every updater is run in each pass, and the team list is
    still counted. *)
Example broken_service_two_passes :
  let s := snd (main_loop Demo.api_url Demo.upstream_broken Demo.repr 2 startup) in
  fst (main_loop Demo.api_url Demo.upstream_broken Demo.repr 2 startup)
  = Return tt
  /\ logged s = [TransportError; JSONDecodeError; TypeError;
                 TransportError; JSONDecodeError; TypeError]
  /\ ONCALL_API_REQUESTS_TOTAL (metrics s) = 8
  /\ ONCALL_TEAMS_TOTAL (metrics s) = 1%Z.
Proof. vm_compute. repeat split; reflexivity. Qed.

(** Team [a] of the demo service: one member, reachable, on one slot and
    two members without a phone on the other.  The team is counted as
    understaffed and as unreachable by phone. *)
Example one_reachable_then_two_unreachable :
  fst (team_step Demo.api_url Demo.upstream Demo.repr (JStr "a") (0, 0) startup)
  = Return (1, 1).
Proof. vm_compute. reflexivity. Qed.

(** Team [a] fully staffed and reachable, team [b] out of reach of the
    exporter: [a] is reported and flagged for nothing, [b] gets no series,
    and the rollups stay at 0. *)
Example two_teams_one_unavailable :
  let m :=
    metrics (snd (teams Demo.api_url Demo.upstream_two_teams Demo.repr startup)) in
  ONCALL_TEAMS_TOTAL m = 2%Z
  /\ ONCALL_TEAM_ROTATION_STAFF_COUNT m !! ("a", "current") = Some 3%Z
  /\ ONCALL_TEAM_ROTATION_UNREACHABLE_BY_PHONE_COUNT m !! ("a", "current")
     = Some 0%Z
  /\ ONCALL_TEAM_ROTATION_STAFF_COUNT m !! ("a", "next") = Some 0%Z
  /\ ONCALL_TEAM_ROTATION_UNREACHABLE_BY_PHONE_COUNT m !! ("a", "next")
     = Some 0%Z
  /\ ONCALL_TEAM_ROTATION_STAFF_COUNT m !! ("b", "current") = None
  /\ ONCALL_TEAM_ROTATION_STAFF_COUNT m !! ("b", "next") = None
  /\ ONCALL_TEAMS_UNDERSTAFFED m = 0%Z
  /\ ONCALL_TEAMS_TOTAL_UNREACHABLE_BY_PHONE m = 0%Z.
Proof. vm_compute. repeat split; reflexivity. Qed.

(** ** When the service misbehaves *)

Lemma str_chars_length (s : string) :
  length (Py.str_chars s) = String.length s.
Proof. induction s as [| c s IH]; simpl; congruence. Qed.

(** [for x in v] visits [len(v)] items. *)
Lemma len_iter (v : json) (n : nat) :
  Py.len v = Ok n ->
  exists items, Py.iter v = Ok items /\ length items = n.
Proof.
  destruct v as [| | | s | items | fields]; simpl; try discriminate;
    intros [= <-]; eexists; (split; [reflexivity |]).
  - apply str_chars_length.
  - reflexivity.
  - apply length_map.
Qed.

(** A comprehension keeps no more items than it is given. *)
Lemma comprehension_length (p : json -> res bool) (items kept : list json) :
  Py.comprehension p items = Ok kept -> length kept <= length items.
Proof.
  revert kept. induction items as [| x items IH]; simpl; intros kept.
  - intros [= <-]. reflexivity.
  - destruct (p x) as [keep |]; [| discriminate]. simpl.
    destruct (Py.comprehension p items) as [tail |]; [| discriminate].
    simpl. intros [= <-]. specialize (IH tail eq_refl).
    destruct keep; simpl; lia.
Qed.

(** A falsy value that supports [in] holds nothing. *)
Lemma falsy_contains (c : json) (k : string) (b : bool) :
  Py.truthy c = false -> k <> "" -> Py.contains k c = Ok b -> b = false.
Proof.
  destruct c as [| | | s | items | fields]; simpl; try discriminate.
  - intros Hs Hk [= <-]. apply negb_false_iff, String.eqb_eq in Hs. subst s.
    destruct k; [congruence | reflexivity].
  - intros Hl _ [= <-]. destruct items; [reflexivity | discriminate].
  - intros Hl _ [= <-]. destruct fields; [reflexivity | discriminate].
Qed.

Section Edges.

Variable api_url : string.
Variable upstream : nat -> string -> reply.
Variable repr : json -> string.

Local Abbreviation health' := (health api_url upstream).
Local Abbreviation users' := (number_of_users_without_contacts api_url upstream).
Local Abbreviation teams' := (teams api_url upstream repr).
Local Abbreviation team_step' := (team_step api_url upstream repr).
Local Abbreviation teams_loop' := (teams_loop api_url upstream repr).
Local Abbreviation summary_url t :=
  (api_url ++ "/api/v0/teams/" ++ str repr t ++ "/summary").

(** When the probe of the root path gets no response, [health] raises
    and writes no gauge: [oncall_health_status] is not set to 0, it keeps
    the value of the last probe that was answered.  The attempt is
    counted, and not as a failed request. *)
Theorem health_no_response (s : state) :
  upstream (sent s) (api_url ++ "/") = NoResponse ->
  let s' := snd (health' s) in
  fst (health' s) = Raise TransportError
  /\ gauges_of (metrics s') = gauges_of (metrics s)
  /\ ONCALL_API_REQUESTS_TOTAL (metrics s')
     = S (ONCALL_API_REQUESTS_TOTAL (metrics s))
  /\ ONCALL_API_REQUESTS_FAILED_TOTAL (metrics s')
     = ONCALL_API_REQUESTS_FAILED_TOTAL (metrics s).
Proof.
  intros Hup. cbv zeta. rewrite health_run, Hup. cbv zeta.
  repeat split; reflexivity.
Qed.

(** A 200 answer to the user list whose body is not JSON, or decodes to
    something without a length ([null], a number, a boolean), makes
    [number_of_users_without_contacts] raise before it has written any
    gauge. *)
Theorem users_unusable_body (s : state) (resp : response) (e : exn) :
  upstream (sent s) (api_url ++ "/api/v0/users") = Responded resp ->
  status_code resp = 200%Z ->
  match payload resp with
  | Some users => Py.len users
  | None => Err JSONDecodeError
  end = Err e ->
  fst (users' s) = Raise e
  /\ gauges_of (metrics (snd (users' s))) = gauges_of (metrics s).
Proof.
  intros Hup Hst Hbody. unfold number_of_users_without_contacts, bind.
  rewrite request_with_counting_run, Hup. cbn [counted]. rewrite Hst.
  cbn [Z.eqb Pos.eqb negb]. unfold resp_json.
  destruct (payload resp) as [users |].
  - cbn [ret lift]. rewrite Hbody. split; reflexivity.
  - injection Hbody as <-. split; reflexivity.
Qed.

(** When the loop over the users raises, the total has already been
    written: [oncall_users_total] shows the new list while
    [oncall_users_without_contacts_gauge] and [oncall_users_without_phone]
    still show the previous one. *)
Theorem users_partial_update (s : state) (resp : response) (users : json)
    (n : nat) (items : list json) (e : exn) :
  upstream (sent s) (api_url ++ "/api/v0/users") = Responded resp ->
  status_code resp = 200%Z ->
  payload resp = Some users ->
  Py.len users = Ok n ->
  Py.iter users = Ok items ->
  users_loop items (0, 0) = Err e ->
  let s' := snd (users' s) in
  fst (users' s) = Raise e
  /\ ONCALL_USERS_TOTAL (metrics s') = Z.of_nat n
  /\ ONCALL_USERS_WITHOUT_CONTACTS_GAUGE (metrics s')
     = ONCALL_USERS_WITHOUT_CONTACTS_GAUGE (metrics s)
  /\ ONCALL_USERS_WITHOUT_PHONE_NUMBER (metrics s')
     = ONCALL_USERS_WITHOUT_PHONE_NUMBER (metrics s).
Proof.
  intros Hup Hst Hbody Hlen Hiter Hloop. cbv zeta.
  unfold number_of_users_without_contacts, bind.
  rewrite request_with_counting_run, Hup. cbn [counted]. rewrite Hst.
  cbn [Z.eqb Pos.eqb negb]. unfold resp_json. rewrite Hbody.
  cbn [ret lift]. rewrite Hlen. cbn [update lift]. rewrite Hiter.
  cbn [lift]. rewrite Hloop. repeat split; reflexivity.
Qed.

(** The debug messages name the user, so a user without a [name] is
    fine as long as nothing is logged about it: with a phone contact it
    is passed over, without one (empty contacts included) the loop body
    raises [KeyError]. *)
Theorem users_step_nameless (fields c : list (string * json)) (a b : nat) :
  Py.dict_get "name" fields = None ->
  Py.dict_get "contacts" fields = Some (JObj c) ->
  users_step (JObj fields) (a, b)
  = if Py.dict_has "call" c || Py.dict_has "sms" c
    then Ok (a, b)
    else Err (KeyError "name").
Proof.
  intros Hname Hc. unfold users_step, lacks_both. cbn [Py.getitem].
  rewrite Hc, Hname. cbn [res_bind Py.truthy Py.contains].
  destruct c as [| kv c]; [reflexivity |].
  cbn [length Nat.eqb negb res_bind].
  destruct (Py.dict_has "call" (kv :: c)); [reflexivity |].
  cbn [res_bind orb]. destruct (Py.dict_has "sms" (kv :: c)); reflexivity.
Qed.

(** One turn of the loop over the users counts the user in neither
    counter, in the no-phone counter alone, or in both: a user without
    contacts is always a user without a phone. *)
Lemma users_step_bounds (user : json) (a b a' b' : nat) :
  users_step user (a, b) = Ok (a', b') ->
  (a' = a /\ (b' = b \/ b' = S b)) \/ (a' = S a /\ b' = S b).
Proof.
  unfold users_step, lacks_both.
  destruct (Py.getitem user "contacts") as [c |]; [| discriminate].
  cbn [res_bind]. destruct (Py.truthy c) eqn:Ht; cbn [negb].
  - cbn [res_bind].
    destruct (Py.contains "call" c) as [[] |]; [| | discriminate];
      cbn [res_bind].
    + intros [= <- <-]. left. auto.
    + destruct (Py.contains "sms" c) as [[] |]; [| | discriminate];
        cbn [res_bind negb].
      * intros [= <- <-]. left. auto.
      * destruct (Py.getitem user "name"); [| discriminate]. cbn.
        intros [= <- <-]. left. auto.
  - destruct (Py.getitem user "name"); [| discriminate]. cbn [res_bind].
    destruct (Py.contains "call" c) as [has1 |] eqn:H1; [| discriminate].
    assert (has1 = false) as ->
      by (apply (falsy_contains c "call"); [assumption | discriminate | assumption]).
    cbn [res_bind].
    destruct (Py.contains "sms" c) as [has2 |] eqn:H2; [| discriminate].
    assert (has2 = false) as ->
      by (apply (falsy_contains c "sms"); [assumption | discriminate | assumption]).
    cbn. intros [= <- <-]. right. auto.
Qed.

Lemma users_loop_bounds (users : list json) (a b a' b' : nat) :
  users_loop users (a, b) = Ok (a', b') ->
  a <= a' /\ a' - a <= b' - b /\ b <= b' /\ b' - b <= length users.
Proof.
  revert a b. induction users as [| user users IH]; intros a b.
  - simpl. intros [= <- <-]. lia.
  - cbn [users_loop].
    destruct (users_step user (a, b)) as [[a1 b1] |] eqn:Hstep;
      [| discriminate].
    cbn [res_bind]. intros Hrest.
    apply users_step_bounds in Hstep. apply IH in Hrest. simpl. lia.
Qed.

(** Whenever [number_of_users_without_contacts] completes on a 200
    answer, whatever the payload, the three gauges it has written are
    ordered: without contacts <= without phone <= total. *)
Theorem users_gauges_ordered (s : state) (resp : response) :
  upstream (sent s) (api_url ++ "/api/v0/users") = Responded resp ->
  status_code resp = 200%Z ->
  fst (users' s) = Return tt ->
  let m' := metrics (snd (users' s)) in
  (0 <= ONCALL_USERS_WITHOUT_CONTACTS_GAUGE m'
   <= ONCALL_USERS_WITHOUT_PHONE_NUMBER m')%Z
  /\ (ONCALL_USERS_WITHOUT_PHONE_NUMBER m' <= ONCALL_USERS_TOTAL m')%Z.
Proof.
  intros Hup Hst. cbv zeta.
  unfold number_of_users_without_contacts, bind.
  rewrite request_with_counting_run, Hup. cbn [counted]. rewrite Hst.
  cbn [Z.eqb Pos.eqb negb]. unfold resp_json.
  destruct (payload resp) as [users |]; [| discriminate].
  cbn [ret lift].
  destruct (Py.len users) as [n |] eqn:Hlen; [| discriminate].
  destruct (len_iter users n Hlen) as (items & Hiter & Hn).
  cbn [update lift]. rewrite Hiter. cbn [lift].
  destruct (users_loop items (0, 0)) as [[a b] |] eqn:Hloop; [| discriminate].
  intros _. apply users_loop_bounds in Hloop. cbn. lia.
Qed.

(** When the team list comes back with a status other than 200, [teams]
    returns at once: one request sent, no summary asked for, no gauge
    written. *)
Theorem teams_list_fetch_failed (s : state) (resp : response) :
  upstream (sent s) (api_url ++ "/api/v0/teams") = Responded resp ->
  status_code resp <> 200%Z ->
  let s' := snd (teams' s) in
  fst (teams' s) = Return tt
  /\ gauges_of (metrics s') = gauges_of (metrics s)
  /\ sent s' = S (sent s).
Proof.
  intros Hup Hst. apply Z.eqb_neq in Hst. cbv zeta. unfold teams, bind.
  rewrite request_with_counting_run, Hup. cbn [counted]. rewrite Hst.
  repeat split; reflexivity.
Qed.

End Edges.

(** ** What a run leaves untouched *)

Lemma along_ret {A} (R : state -> state -> Prop) (a : A) :
  (forall s, R s s) -> along R (ret a).
Proof. intros Hrefl s. apply Hrefl. Qed.

Lemma along_lift {A} (R : state -> state -> Prop) (r : res A) :
  (forall s, R s s) -> along R (lift r).
Proof. intros Hrefl s. unfold lift. destruct r; apply Hrefl. Qed.

Lemma along_resp_json (R : state -> state -> Prop) (resp : response) :
  (forall s, R s s) -> along R (resp_json resp).
Proof.
  intros Hrefl s. unfold resp_json. destruct (payload resp); apply Hrefl.
Qed.

Lemma along_update (R : state -> state -> Prop) (f : registry -> registry) :
  (forall s, R s (written f s)) -> along R (update f).
Proof. intros Hf s. apply Hf. Qed.

(** The head of a sequence goes along with [R1], what follows with [R]. *)
Lemma along_bind {A B} (R1 R : state -> state -> Prop)
    (m : M A) (k : A -> M B) :
  (forall a b c, R1 a b -> R b c -> R1 a c) ->
  along R1 m -> (forall a, along R (k a)) -> along R1 (bind m k).
Proof.
  intros Hcomp Hm Hk s. unfold bind. specialize (Hm s).
  destruct (m s) as [[a | e] s1]; cbn [snd] in *.
  - eapply Hcomp; [exact Hm | apply Hk].
  - exact Hm.
Qed.

Lemma along_request (R : state -> state -> Prop) (api_url : string)
    (upstream : nat -> string -> reply) (path : string) :
  (forall s r, R s (requested r s)) ->
  along R (request_with_counting api_url upstream path).
Proof. intros Hreq s. rewrite request_with_counting_run. apply Hreq. Qed.

Section SlotStep.

Variable repr : json -> string.

(** One turn of the loop over the slots, whatever the summary looks like:
    it raises before it has written anything, or it writes both series of
    the slot, with no more unreachable members than members, and hands on
    flags that have not gone down. *)
Lemma slot_step_cases (t td : json) (et : string) (flags : bool * bool)
    (s : state) :
  (exists e, slot_step repr t td et flags s = (Raise e, s))
  \/ (exists n u flags',
        u <= n
        /\ (fst flags = true -> fst flags' = true)
        /\ (snd flags = true -> snd flags' = true)
        /\ slot_step repr t td et flags s
           = (Return flags', written (pair_written (str repr t) et n u) s)).
Proof.
  destruct flags as [fu fr]. unfold slot_step, bind, lift.
  destruct (Py.getitem td et) as [event |]; [| left; eauto].
  destruct (Py.truthy event); cbn [negb].
  - destruct (Py.getitem event "primary") as [p |]; [| left; eauto].
    destruct (Py.getitem event "secondary") as [q |]; [| left; eauto].
    destruct (Py.add p q) as [members |]; [| left; eauto].
    destruct (Py.iter members) as [items |] eqn:Hiter; [| left; eauto].
    destruct (Py.comprehension _ items) as [kept |] eqn:Hkept;
      [| left; eauto].
    destruct (Py.len members) as [n |] eqn:Hlen; [| left; eauto].
    right. exists n, (length kept). eexists. cbn [update ret].
    split; [| split; [| split; [| reflexivity]]].
    + apply comprehension_length in Hkept.
      destruct (len_iter members n Hlen) as (items' & Hiter' & <-).
      congruence.
    + cbn [fst]. intros ->. destruct (Nat.ltb n 2); reflexivity.
    + cbn [snd]. intros ->. destruct (Py.eqb _ _); reflexivity.
  - right. exists 0, 0, (fu, fr). cbn [update ret].
    split; [lia | split; [auto | split; [auto | reflexivity]]].
Qed.

End SlotStep.

Section Going.

Variable api_url : string.
Variable upstream : nat -> string -> reply.
Variable repr : json -> string.

(** [R1] relates the state before an updater to the state after its
    first request and anything that follows; [R] is what each later step
    goes along with. *)
Variables R1 R : state -> state -> Prop.
Hypothesis R_refl : forall s, R s s.
Hypothesis R_trans : forall a b c, R a b -> R b c -> R a c.
Hypothesis R1_then_R : forall a b c, R1 a b -> R b c -> R1 a c.
Hypothesis R1_request : forall s r, R1 s (requested r s).
Hypothesis R_request : forall s r, R s (requested r s).

Ltac going :=
  repeat lazymatch goal with
    | |- along _ (bind _ _) =>
        apply (along_bind R R); [exact R_trans | | intros ?]
    | |- along _ (ret _) => apply along_ret; exact R_refl
    | |- along _ (lift _) => apply along_lift; exact R_refl
    | |- along _ (resp_json _) => apply along_resp_json; exact R_refl
    | |- along _ (request_with_counting _ _ _) =>
        apply along_request; exact R_request
    | |- along _ (update _) => apply along_update; solve [auto]
    | |- along _ (if ?b then _ else _) => destruct b
    | |- along _ (let _ := _ in _) => cbv zeta
    end.

Lemma along_health :
  (forall (up : bool) s,
      R s (written (Reg.set_health_status (if up then 1 else 0)) s)) ->
  along R1 (health api_url upstream).
Proof.
  intros Hw. unfold health.
  apply (along_bind R1 R);
    [exact R1_then_R | apply along_request; exact R1_request | intros resp].
  destruct (status_code resp =? 200)%Z; apply along_update;
    [apply (Hw true) | apply (Hw false)].
Qed.

Lemma along_users :
  (forall n s, R s (written (Reg.set_users_total (Z.of_nat n)) s)) ->
  (forall n s, R s (written (Reg.set_users_without_contacts (Z.of_nat n)) s)) ->
  (forall n s, R s (written (Reg.set_users_without_phone (Z.of_nat n)) s)) ->
  along R1 (number_of_users_without_contacts api_url upstream).
Proof.
  intros Ht Hc Hp. unfold number_of_users_without_contacts.
  apply (along_bind R1 R);
    [exact R1_then_R | apply along_request; exact R1_request | intros resp].
  going.
Qed.

(** The labels the loop over the teams may write under. *)
Variable L : string -> Prop.
Hypothesis R_pair : forall l et n u s,
  L l -> et = "current" \/ et = "next" -> u <= n ->
  R s (written (pair_written l et n u) s).

Lemma along_slot_step (t td : json) (et : string) (flags : bool * bool) :
  L (str repr t) -> et = "current" \/ et = "next" ->
  along R (slot_step repr t td et flags).
Proof.
  intros Hl Het s.
  destruct (slot_step_cases repr t td et flags s)
    as [[e ->] | (n & u & flags' & Hle & _ & _ & ->)]; cbn [snd].
  - apply R_refl.
  - apply R_pair; assumption.
Qed.

Lemma along_slots_loop (t td : json) (ets : list string)
    (flags : bool * bool) :
  L (str repr t) ->
  List.Forall (fun et => et = "current" \/ et = "next") ets ->
  along R (slots_loop repr t td ets flags).
Proof.
  intros Hl Hets. revert flags.
  induction Hets as [| et ets Het _ IH]; intros flags; cbn [slots_loop].
  - apply along_ret. exact R_refl.
  - apply (along_bind R R); [exact R_trans | | intros flags'; apply IH].
    apply along_slot_step; assumption.
Qed.

Lemma along_team_step (t : json) (acc : nat * nat) :
  L (str repr t) -> along R (team_step api_url upstream repr t acc).
Proof.
  intros Hl. unfold team_step. destruct acc as [u r].
  apply (along_bind R R);
    [exact R_trans | apply along_request; exact R_request | intros resp].
  destruct (negb (status_code resp =? 200)%Z);
    [apply along_ret; exact R_refl |].
  apply (along_bind R R);
    [exact R_trans | apply along_resp_json; exact R_refl | intros td].
  apply (along_bind R R); [exact R_trans | | intros flags; going].
  apply along_slots_loop; [exact Hl |].
  apply List.Forall_cons; [left; reflexivity |].
  apply List.Forall_cons; [right; reflexivity | apply List.Forall_nil].
Qed.

Lemma along_teams_loop (ts : list json) (acc : nat * nat) :
  List.Forall (fun t => L (str repr t)) ts ->
  along R (teams_loop api_url upstream repr ts acc).
Proof.
  intros Hts. revert acc.
  induction Hts as [| t ts Ht _ IH]; intros acc; cbn [teams_loop].
  - apply along_ret. exact R_refl.
  - apply (along_bind R R); [exact R_trans | | intros acc'; apply IH].
    apply along_team_step. exact Ht.
Qed.

Lemma along_teams :
  (forall l, L l) ->
  (forall n s, R s (written (Reg.set_teams_total (Z.of_nat n)) s)) ->
  (forall n s, R s (written (Reg.set_teams_understaffed (Z.of_nat n)) s)) ->
  (forall n s,
      R s (written (Reg.set_teams_total_unreachable_by_phone (Z.of_nat n)) s)) ->
  along R1 (teams api_url upstream repr).
Proof.
  intros Hall Ht Hu Hr. unfold teams.
  apply (along_bind R1 R);
    [exact R1_then_R | apply along_request; exact R1_request | intros resp].
  destruct (negb (status_code resp =? 200)%Z);
    [apply along_ret; exact R_refl |].
  do 5 (apply (along_bind R R); [exact R_trans | going | intros ?]).
  apply (along_bind R R); [exact R_trans | | intros counts; going].
  apply along_teams_loop. apply List.Forall_forall. intros t _. apply Hall.
Qed.

End Going.

Lemma rotation_series_counted (r : reply) (m : registry) (t e : string) :
  rotation_series (counted r m) t e = rotation_series m t e.
Proof.
  unfold rotation_series. destruct (counted_series r m) as [-> ->].
  reflexivity.
Qed.

Lemma rotation_series_pair (l et : string) (n u : nat) (m : registry)
    (t e : string) :
  rotation_series (pair_written l et n u m) t e
  = if decide ((l, et) = (t, e))
    then (Some (Z.of_nat n), Some (Z.of_nat u))
    else rotation_series m t e.
Proof.
  unfold rotation_series, pair_written. cbn.
  destruct (decide ((l, et) = (t, e))) as [<- | Hne].
  - rewrite !lookup_insert_eq. reflexivity.
  - rewrite !lookup_insert_ne by exact Hne. reflexivity.
Qed.

Section Scheduling.

Variable api_url : string.
Variable upstream : nat -> string -> reply.
Variable repr : json -> string.

Local Abbreviation health' := (health api_url upstream).
Local Abbreviation users' := (number_of_users_without_contacts api_url upstream).
Local Abbreviation teams' := (teams api_url upstream repr).
Local Abbreviation pass s := (guarded teams' (guarded users' (guarded health' s))).

Lemma main_loop_run (passes : nat) (s : state) :
  main_loop api_url upstream repr passes s
  = (Return tt, Nat.iter passes (fun st => pass st) s).
Proof.
  revert s. induction passes as [| n IH]; intros s; [reflexivity |].
  cbn [main_loop]. unfold bind. rewrite run_pass_run.
  rewrite IH, Nat.iter_succ_r. reflexivity.
Qed.

Lemma stable_updaters (R : state -> state -> Prop) :
  stable R -> along R health' /\ along R users' /\ along R teams'.
Proof.
  intros [Hrefl Htrans Hreq Hh Hut Huc Hup Htt Htu Htr Hpair Hlog].
  split; [| split].
  - apply (along_health _ _ R R); assumption.
  - apply (along_users _ _ R R); assumption.
  - apply (along_teams _ _ _ R R) with (L := fun _ => True);
      try assumption; [| exact (fun _ => I)].
    intros l et n u s _. apply Hpair.
Qed.

Lemma stable_guarded (R : state -> state -> Prop) (func : M unit) (s : state) :
  stable R -> along R func -> R s (guarded func s).
Proof.
  intros H Hf. unfold guarded. specialize (Hf s).
  destruct (func s) as [[[] | e] s']; cbn [snd] in Hf; [exact Hf |].
  eapply stable_trans; [exact H | exact Hf | apply stable_log; exact H].
Qed.

Lemma stable_pass (R : state -> state -> Prop) (s : state) :
  stable R -> R s (pass s).
Proof.
  intros H. destruct (stable_updaters R H) as (Hh & Hu & Ht).
  apply (stable_trans R H) with (b := guarded health' s);
    [exact (stable_guarded R health' s H Hh) |].
  apply (stable_trans R H) with (b := guarded users' (guarded health' s)).
  - exact (stable_guarded R users' _ H Hu).
  - exact (stable_guarded R teams' _ H Ht).
Qed.

Lemma stable_main_loop (R : state -> state -> Prop) (passes : nat) (s : state) :
  stable R -> R s (snd (main_loop api_url upstream repr passes s)).
Proof.
  intros H. rewrite main_loop_run. cbn [snd].
  induction passes as [| n IH]; [| rewrite Nat.iter_succ].
  - apply stable_refl. exact H.
  - eapply stable_trans; [exact H | exact IH |].
    exact (stable_pass R _ H).
Qed.

End Scheduling.

Lemma stable_accounted : stable accounted.
Proof.
  constructor; unfold accounted, requested, written, pair_written.
  - intros s. lia.
  - intros a b c H1 H2. lia.
  - intros s [| resp]; cbn; [lia |].
    destruct (status_code resp =? 200)%Z; cbn; lia.
  - intros up s. cbn. lia.
  - intros n s. cbn. lia.
  - intros n s. cbn. lia.
  - intros n s. cbn. lia.
  - intros n s. cbn. lia.
  - intros n s. cbn. lia.
  - intros n s. cbn. lia.
  - intros l et n u s _ _. cbn. lia.
  - intros s e. cbn. lia.
Qed.

Lemma stable_series_kept : stable series_kept.
Proof.
  constructor; unfold series_kept, requested, written.
  - intros s t e. split; auto.
  - intros a b c H1 H2 t e. destruct (H1 t e), (H2 t e). split; auto.
  - intros s r t e. cbn [metrics]. rewrite rotation_series_counted.
    split; auto.
  - intros up s t e. split; auto.
  - intros n s t e. split; auto.
  - intros n s t e. split; auto.
  - intros n s t e. split; auto.
  - intros n s t e. split; auto.
  - intros n s t e. split; auto.
  - intros n s t e. split; auto.
  - intros l et n u s _ _ t e. cbn [metrics]. rewrite rotation_series_pair.
    destruct (decide ((l, et) = (t, e))); cbn [fst snd]; split; eauto.
  - intros s e t e'. split; auto.
Qed.

Lemma stable_series_consistent : stable (preserves series_consistent).
Proof.
  constructor; unfold preserves, requested, written.
  - auto.
  - intros a b c H1 H2 Ha. apply H2, H1, Ha.
  - intros s r H t e. cbn [metrics]. rewrite rotation_series_counted.
    apply H.
  - intros up s H. exact H.
  - intros n s H. exact H.
  - intros n s H. exact H.
  - intros n s H. exact H.
  - intros n s H. exact H.
  - intros n s H. exact H.
  - intros n s H. exact H.
  - intros l et n u s Het Hle H t e. cbn [metrics].
    rewrite rotation_series_pair.
    destruct (decide ((l, et) = (t, e))) as [[= <- <-] | _]; [| apply H].
    split; [lia | exact Het].
  - intros s e H. exact H.
Qed.

Lemma stable_in_range : stable (preserves in_range).
Proof.
  constructor; unfold preserves; [auto | |
    unfold in_range, requested, written, pair_written; cbv zeta ..].
  - intros a b c H1 H2 Ha. apply H2, H1, Ha.
  - intros s [| resp]; cbn; [auto |].
    destruct (status_code resp =? 200)%Z; cbn; auto.
  - intros [] s; cbn; intuition lia.
  - intros n s; cbn; intuition lia.
  - intros n s; cbn; intuition lia.
  - intros n s; cbn; intuition lia.
  - intros n s; cbn; intuition lia.
  - intros n s; cbn; intuition lia.
  - intros n s; cbn; intuition lia.
  - intros l et n u s _ _; cbn; auto.
  - intros s e; cbn; auto.
Qed.

(** ** What holds of every run *)

Section Runs.

Variable api_url : string.
Variable upstream : nat -> string -> reply.
Variable repr : json -> string.

Local Abbreviation health' := (health api_url upstream).
Local Abbreviation users' := (number_of_users_without_contacts api_url upstream).
Local Abbreviation teams' := (teams api_url upstream repr).
Local Abbreviation team_step' := (team_step api_url upstream repr).
Local Abbreviation teams_loop' := (teams_loop api_url upstream repr).
Local Abbreviation main_loop' := (main_loop api_url upstream repr).
Local Abbreviation summary_url t :=
  (api_url ++ "/api/v0/teams/" ++ str repr t ++ "/summary").

Lemma keeps_request {X} (proj : state -> X) :
  (forall s r, proj (requested r s) = proj s) ->
  forall s r, keeps proj s (requested r s).
Proof. intros H s r. apply H. Qed.

Lemma counted_cases (r : reply) (m : registry) :
  counted r m = Reg.inc_requests_total m
  \/ counted r m = Reg.inc_requests_failed_total (Reg.inc_requests_total m).
Proof.
  destruct r as [| resp]; cbn; [auto |].
  destruct (status_code resp =? 200)%Z; auto.
Qed.

(** Whenever one turn of the loop over the slots completes, whatever
    the summary looks like, it has written both series of that team and
    slot, with no more unreachable members than members, and neither
    flag has gone from raised to lowered. *)
Theorem slot_step_writes_ordered_pair (t td : json) (et : string)
    (flags flags' : bool * bool) (s s' : state) :
  slot_step repr t td et flags s = (Return flags', s') ->
  exists n u,
    rotation_series (metrics s') (str repr t) et
    = (Some (Z.of_nat n), Some (Z.of_nat u))
    /\ u <= n
    /\ (fst flags = true -> fst flags' = true)
    /\ (snd flags = true -> snd flags' = true).
Proof.
  intros Hrun.
  destruct (slot_step_cases repr t td et flags s)
    as [[e He] | (n & u & f & Hle & Hu & Hr & Hs)]; [congruence |].
  rewrite Hs in Hrun. injection Hrun as <- <-.
  exists n, u. cbn [written metrics]. rewrite rotation_series_pair.
  rewrite decide_True by reflexivity. auto.
Qed.

(** No updater writes a gauge of another: [health] leaves the user and
    team gauges alone, [number_of_users_without_contacts] the health and
    team gauges, and [teams] the health and user gauges, whatever the
    service answers and whether the run raises or not. *)
Theorem updaters_own_gauges (s : state) :
  beside_health (snd (health' s)) = beside_health s
  /\ beside_users (snd (users' s)) = beside_users s
  /\ beside_teams (snd (teams' s)) = beside_teams s.
Proof.
  split; [| split].
  - apply (along_health _ _ (keeps beside_health) (keeps beside_health));
      unfold keeps; try congruence.
    + intros s0 r. unfold beside_health. cbn [requested metrics].
      destruct (counted_cases r (metrics s0)) as [-> | ->]; reflexivity.
    + intros up s0. reflexivity.
  - apply (along_users _ _ (keeps beside_users) (keeps beside_users));
      unfold keeps; try congruence; try reflexivity.
    all: intros s0 r; unfold beside_users; cbn [requested metrics];
      destruct (counted_cases r (metrics s0)) as [-> | ->]; reflexivity.
  - apply (along_teams _ _ _ (keeps beside_teams) (keeps beside_teams))
      with (L := fun _ => True);
      unfold keeps; try congruence; try reflexivity; try exact (fun _ => I).
    all: intros s0 r; unfold beside_teams; cbn [requested metrics];
      destruct (counted_cases r (metrics s0)) as [-> | ->]; reflexivity.
Qed.

(** *** Requests sent and requests counted *)

Lemma updaters_send (s : state) :
  sent s < sent (snd (health' s))
  /\ sent s < sent (snd (users' s))
  /\ sent s < sent (snd (teams' s)).
Proof.
  destruct stable_accounted
    as [Hrefl Htrans Hreq Hh Hut Huc Hup Htt Htu Htr Hpair Hlog].
  assert (Hcomp : forall a b c : state,
             sent a < sent b -> accounted b c -> sent a < sent c).
  { unfold accounted. intros a b c H1 H2. lia. }
  assert (Hreq1 : forall s0 r, sent s0 < sent (requested r s0)).
  { intros s0 r. cbn. lia. }
  split; [| split].
  - apply (along_health _ _ (fun a b => sent a < sent b) accounted);
      assumption.
  - apply (along_users _ _ (fun a b => sent a < sent b) accounted);
      assumption.
  - apply (along_teams _ _ _ (fun a b => sent a < sent b) accounted)
      with (L := fun _ => True); try assumption; [| exact (fun _ => I)].
    intros l et n u s0 _. apply Hpair.
Qed.

Lemma guarded_sent (func : M unit) (s : state) :
  sent (guarded func s) = sent (snd (func s)).
Proof. unfold guarded. destruct (func s) as [[[] | e] s']; reflexivity. Qed.

(** Over any number of passes of the scheduler, whatever the service
    answers: [oncall_api_requests_total] grows by exactly the number of
    requests sent, [oncall_api_requests_failed_total] never decreases and
    grows by no more, and every pass sends at least three requests, one
    by each updater. *)
Theorem requests_accounted (passes : nat) (s : state) :
  let s' := snd (main_loop' passes s) in
  accounted s s' /\ sent s + 3 * passes <= sent s'.
Proof.
  cbv zeta. split; [apply stable_main_loop, stable_accounted |].
  rewrite main_loop_run. cbn [snd].
  induction passes as [| n IH]; [simpl; lia | rewrite Nat.iter_succ].
  set (s1 := Nat.iter n _ s) in *.
  rewrite guarded_sent.
  destruct (updaters_send s1) as (H1 & _ & _).
  destruct (updaters_send (guarded health' s1)) as (_ & H2 & _).
  destruct (updaters_send (guarded users' (guarded health' s1)))
    as (_ & _ & H3).
  rewrite guarded_sent in H2, H3. lia.
Qed.

(** *** The exception log *)

Lemma updaters_keep_log (s : state) :
  logged (snd (health' s)) = logged s
  /\ logged (snd (users' s)) = logged s
  /\ logged (snd (teams' s)) = logged s.
Proof.
  split; [| split].
  - apply (along_health _ _ (keeps logged) (keeps logged));
      unfold keeps; try congruence; reflexivity.
  - apply (along_users _ _ (keeps logged) (keeps logged));
      unfold keeps; try congruence; reflexivity.
  - apply (along_teams _ _ _ (keeps logged) (keeps logged))
      with (L := fun _ => True);
      unfold keeps; try congruence; try reflexivity; exact (fun _ => I).
Qed.

Lemma guarded_logged (func : M unit) (s : state) :
  logged (snd (func s)) = logged s ->
  exists more,
    logged (guarded func s) = (logged s ++ more)%list /\ length more <= 1.
Proof.
  intros Hkeep. unfold guarded.
  destruct (func s) as [[[] | e] s']; cbn [snd logged] in *.
  - exists []. rewrite app_nil_r. auto.
  - exists [e]. rewrite Hkeep. auto.
Qed.

(** The updaters never touch the exception log; the scheduler only adds
    to its end, at most one entry per updater and pass. *)
Theorem log_grows_by_pass (passes : nat) (s : state) :
  (logged (snd (health' s)) = logged s
   /\ logged (snd (users' s)) = logged s
   /\ logged (snd (teams' s)) = logged s)
  /\ exists more,
       logged (snd (main_loop' passes s)) = (logged s ++ more)%list
       /\ length more <= 3 * passes.
Proof.
  split; [apply updaters_keep_log |].
  rewrite main_loop_run. cbn [snd].
  induction passes as [| n IH]; [| rewrite Nat.iter_succ].
  - exists []. simpl. rewrite app_nil_r. auto.
  - destruct IH as (more & Hmore & Hlen). set (s1 := Nat.iter n _ s) in *.
    destruct (updaters_keep_log s1) as (K1 & _ & _).
    destruct (guarded_logged health' s1 K1) as (m1 & E1 & L1).
    destruct (updaters_keep_log (guarded health' s1)) as (_ & K2 & _).
    destruct (guarded_logged users' _ K2) as (m2 & E2 & L2).
    destruct (updaters_keep_log (guarded users' (guarded health' s1)))
      as (_ & _ & K3).
    destruct (guarded_logged teams' _ K3) as (m3 & E3 & L3).
    exists (more ++ m1 ++ m2 ++ m3)%list.
    rewrite E3, E2, E1, Hmore, !length_app, <- !app_assoc.
    split; [reflexivity | lia].
Qed.

(** *** Invariants of the registry *)

(** A labelled series, once created, is never removed: after any number
    of passes every team and slot that had a series still has it, however
    long ago the team left the team list. *)
Theorem series_are_kept (passes : nat) (s : state) (t e : string) :
  let m := metrics s in
  let m' := metrics (snd (main_loop' passes s)) in
  (is_Some (ONCALL_TEAM_ROTATION_STAFF_COUNT m !! (t, e))
   -> is_Some (ONCALL_TEAM_ROTATION_STAFF_COUNT m' !! (t, e)))
  /\ (is_Some (ONCALL_TEAM_ROTATION_UNREACHABLE_BY_PHONE_COUNT m !! (t, e))
      -> is_Some (ONCALL_TEAM_ROTATION_UNREACHABLE_BY_PHONE_COUNT m' !! (t, e))).
Proof.
  exact (stable_main_loop api_url upstream repr series_kept passes s
           stable_series_kept t e).
Qed.

(** The two labelled gauges stay in step over any number of passes,
    whatever the service answers: a team and slot has both series or
    neither, its slot label is [current] or [next], and its unreachable
    count is between 0 and its staff count. *)
Theorem series_stay_consistent (passes : nat) (s : state) :
  series_consistent s ->
  series_consistent (snd (main_loop' passes s)).
Proof.
  exact (stable_main_loop api_url upstream repr (preserves series_consistent)
           passes s stable_series_consistent).
Qed.

(** Over any number of passes, whatever the service answers,
    [oncall_health_status] stays 0 or 1 and no gauge becomes negative. *)
Theorem gauges_stay_in_range (passes : nat) (s : state) :
  in_range s -> in_range (snd (main_loop' passes s)).
Proof.
  exact (stable_main_loop api_url upstream repr (preserves in_range)
           passes s stable_in_range).
Qed.

End Runs.

(** ** More on a pass over the teams *)

Section TeamRuns.

Variable api_url : string.
Variable upstream : nat -> string -> reply.
Variable repr : json -> string.

Local Abbreviation teams' := (teams api_url upstream repr).
Local Abbreviation team_step' := (team_step api_url upstream repr).
Local Abbreviation teams_loop' := (teams_loop api_url upstream repr).
Local Abbreviation summary_url t :=
  (api_url ++ "/api/v0/teams/" ++ str repr t ++ "/summary").

Lemma teams_loop_app (ts1 ts2 : list json) (acc : nat * nat) (s : state) :
  teams_loop' (ts1 ++ ts2) acc s
  = bind (teams_loop' ts1 acc) (fun acc' => teams_loop' ts2 acc') s.
Proof.
  revert acc s. induction ts1 as [| t ts1 IH]; intros acc s.
  - cbn. reflexivity.
  - cbn [app teams_loop]. unfold bind at 1 2 3.
    destruct (team_step' t acc s) as [[acc1 | e] s1]; [| reflexivity].
    rewrite IH. reflexivity.
Qed.

(** The loop over the teams stops at the first team whose summary
    request gets no response: it raises, and no team after that one is
    asked for or reported. *)
Theorem teams_loop_stops_at_no_response (ts1 : list json) (t : json)
    (ts2 : list json) (acc acc1 : nat * nat) (s s1 : state) :
  teams_loop' ts1 acc s = (Return acc1, s1) ->
  upstream (sent s1) (summary_url t) = NoResponse ->
  teams_loop' (ts1 ++ t :: ts2) acc s
  = (Raise TransportError, requested NoResponse s1).
Proof.
  intros H1 Ht. rewrite teams_loop_app. unfold bind at 1. rewrite H1.
  cbn [teams_loop]. unfold bind at 1. unfold team_step.
  destruct acc1 as [u r]. unfold bind.
  rewrite request_with_counting_run, Ht. reflexivity.
Qed.

Lemma team_step_bounds (t : json) (u r u' r' : nat) (s s' : state) :
  team_step' t (u, r) s = (Return (u', r'), s') ->
  u <= u' <= S u /\ r <= r' <= S r.
Proof.
  unfold team_step, bind. rewrite request_with_counting_run.
  destruct (upstream (sent s) (summary_url t)) as [| resp]; [discriminate |].
  destruct (negb (status_code resp =? 200)%Z).
  - intros [= <- <- _]. lia.
  - unfold resp_json. destruct (payload resp) as [td |]; [| discriminate].
    cbn [ret].
    destruct (slots_loop repr t td ["current"; "next"] (false, false) _)
      as [[[fu fr] | e] s2]; [| discriminate].
    cbn [fst snd]. intros [= <- <- _]. destruct fu, fr; lia.
Qed.

Lemma teams_loop_bounds (ts : list json) (u r u' r' : nat) (s s' : state) :
  teams_loop' ts (u, r) s = (Return (u', r'), s') ->
  u <= u' <= u + length ts /\ r <= r' <= r + length ts.
Proof.
  revert u r s. induction ts as [| t ts IH]; intros u r s.
  - cbn. intros [= <- <- _]. lia.
  - cbn [teams_loop]. unfold bind at 1.
    destruct (team_step' t (u, r) s) as [[[u1 r1] | e] s1] eqn:Hstep;
      [| discriminate].
    intros Hrest. apply team_step_bounds in Hstep. apply IH in Hrest.
    cbn [length]. lia.
Qed.

(** What the loop over the teams leaves alone: the scalar gauges. *)
Lemma teams_loop_keeps_scalars (ts : list json) (acc : nat * nat) (s : state) :
  let m := metrics s in
  let m' := metrics (snd (teams_loop' ts acc s)) in
  ONCALL_TEAMS_TOTAL m' = ONCALL_TEAMS_TOTAL m
  /\ ONCALL_TEAMS_UNDERSTAFFED m' = ONCALL_TEAMS_UNDERSTAFFED m
  /\ ONCALL_TEAMS_TOTAL_UNREACHABLE_BY_PHONE m'
     = ONCALL_TEAMS_TOTAL_UNREACHABLE_BY_PHONE m.
Proof.
  cbv zeta.
  pose (proj := fun st : state =>
          (ONCALL_TEAMS_TOTAL (metrics st),
           ONCALL_TEAMS_UNDERSTAFFED (metrics st),
           ONCALL_TEAMS_TOTAL_UNREACHABLE_BY_PHONE (metrics st))).
  assert (H : keeps proj s (snd (teams_loop' ts acc s))).
  { apply (along_teams_loop api_url upstream repr (keeps proj))
      with (L := fun _ => True); unfold keeps; try congruence.
    - intros s0 r0. unfold proj. cbn [requested metrics].
      destruct (counted_cases r0 (metrics s0)) as [-> | ->]; reflexivity.
    - intros l et n u s0 _ _ _. reflexivity.
    - apply List.Forall_forall. intros; exact I. }
  unfold keeps, proj in H. injection H as H1 H2 H3. auto.
Qed.

(** When [teams] raises, at whatever point and for whatever reason, the
    two rollup gauges have not been written: [oncall_teams_understaffed]
    and [oncall_teams_total_unreachable_by_phone] still show the last pass
    that went through. *)
Theorem teams_raise_keeps_rollups (s : state) (e : exn) :
  fst (teams' s) = Raise e ->
  let m := metrics s in
  let m' := metrics (snd (teams' s)) in
  ONCALL_TEAMS_UNDERSTAFFED m' = ONCALL_TEAMS_UNDERSTAFFED m
  /\ ONCALL_TEAMS_TOTAL_UNREACHABLE_BY_PHONE m'
     = ONCALL_TEAMS_TOTAL_UNREACHABLE_BY_PHONE m.
Proof.
  cbv zeta. unfold teams, bind. rewrite request_with_counting_run.
  set (r0 := upstream (sent s) (api_url ++ "/api/v0/teams")).
  assert (Hc : ONCALL_TEAMS_UNDERSTAFFED (counted r0 (metrics s))
               = ONCALL_TEAMS_UNDERSTAFFED (metrics s)
               /\ ONCALL_TEAMS_TOTAL_UNREACHABLE_BY_PHONE (counted r0 (metrics s))
                  = ONCALL_TEAMS_TOTAL_UNREACHABLE_BY_PHONE (metrics s)).
  { destruct (counted_cases r0 (metrics s)) as [-> | ->]; split; reflexivity. }
  destruct r0 as [| resp]; [intros _; exact Hc |].
  destruct (negb (status_code resp =? 200)%Z); [discriminate |].
  unfold resp_json. destruct (payload resp) as [v |]; [| intros _; exact Hc].
  cbn [ret lift]. destruct (Py.len v) as [n |]; [| intros _; exact Hc].
  cbn [update lift].
  destruct (Py.iter v) as [items |]; cbn [lift]; [| intros _; exact Hc].
  match goal with
  | |- context [teams_loop' items (0, 0) ?s1] =>
      pose proof (teams_loop_keeps_scalars items (0, 0) s1) as (_ & Hu & Hr);
      destruct (teams_loop' items (0, 0) s1) as [[counts | e'] s2]
  end; [discriminate |].
  intros _. cbn [snd metrics] in *. rewrite Hu, Hr. exact Hc.
Qed.

(** Whenever [teams] completes on a 200 answer to the team list,
    whatever the summaries look like, neither rollup gauge exceeds
    [oncall_teams_total]. *)
Theorem teams_rollups_bounded (s : state) (resp : response) :
  upstream (sent s) (api_url ++ "/api/v0/teams") = Responded resp ->
  status_code resp = 200%Z ->
  fst (teams' s) = Return tt ->
  let m' := metrics (snd (teams' s)) in
  (0 <= ONCALL_TEAMS_UNDERSTAFFED m' <= ONCALL_TEAMS_TOTAL m')%Z
  /\ (0 <= ONCALL_TEAMS_TOTAL_UNREACHABLE_BY_PHONE m'
      <= ONCALL_TEAMS_TOTAL m')%Z.
Proof.
  intros Hup Hst. cbv zeta. unfold teams, bind.
  rewrite request_with_counting_run, Hup. cbn [counted]. rewrite Hst.
  cbn [Z.eqb Pos.eqb negb]. unfold resp_json.
  destruct (payload resp) as [v |]; [| discriminate].
  cbn [ret lift]. destruct (Py.len v) as [n |] eqn:Hlen; [| discriminate].
  destruct (len_iter v n Hlen) as (items & Hiter & Hn).
  cbn [update lift]. rewrite Hiter. cbn [lift].
  match goal with
  | |- context [teams_loop' items (0, 0) ?s1] =>
      pose proof (teams_loop_keeps_scalars items (0, 0) s1) as (Ht & _ & _);
      destruct (teams_loop' items (0, 0) s1) as [[[u r] | e'] s2] eqn:Hloop
  end; [| discriminate].
  intros _. apply teams_loop_bounds in Hloop.
  cbn [snd metrics fst] in *. cbn. rewrite Ht. cbn. lia.
Qed.

(** A pass over the teams writes under the labels of the teams of the
    list only: the series of any other team keep their values, whatever
    the summaries look like and whether the pass raises or not. *)
Theorem teams_spares_other_labels (s : state) (resp : response)
    (ts : list json) (l e : string) :
  upstream (sent s) (api_url ++ "/api/v0/teams") = Responded resp ->
  payload resp = Some (JArr ts) ->
  ~ In l (map (str repr) ts) ->
  rotation_series (metrics (snd (teams' s))) l e
  = rotation_series (metrics s) l e.
Proof.
  intros Hup Hbody Hnot. unfold teams, bind.
  rewrite request_with_counting_run, Hup.
  set (s0 := State (counted (Responded resp) (metrics s)) (S (sent s))
               (logged s)).
  assert (H0 : rotation_series (metrics s0) l e = rotation_series (metrics s) l e)
    by apply rotation_series_counted.
  destruct (negb (status_code resp =? 200)%Z); [exact H0 |].
  unfold resp_json. rewrite Hbody.
  cbn [ret lift Py.len Py.iter update].
  match goal with
  | |- context [teams_loop' ts (0, 0) ?s1] =>
      assert (H1 : keeps (fun st => rotation_series (metrics st) l e) s1
                     (snd (teams_loop' ts (0, 0) s1)));
      [| destruct (teams_loop' ts (0, 0) s1) as [[counts | e'] s2]]
  end.
  - apply (along_teams_loop api_url upstream repr
             (keeps (fun st => rotation_series (metrics st) l e)))
      with (L := fun l' => l' <> l); unfold keeps; try congruence.
    + intros st r. cbn [requested metrics]. apply rotation_series_counted.
    + intros l' et n u st Hl' _ _. cbn [written metrics].
      rewrite rotation_series_pair. apply decide_False. congruence.
    + apply List.Forall_forall. intros t Ht Heq. apply Hnot.
      rewrite <- Heq. apply in_map. exact Ht.
  - unfold keeps in H1. cbn [snd metrics] in *. cbn [update snd metrics].
    etransitivity; [| exact H0]. etransitivity; [| exact H1]. reflexivity.
  - unfold keeps in H1. cbn [snd metrics] in *.
    etransitivity; [| exact H0]. exact H1.
Qed.

End TeamRuns.

(** ** Registration order *)

Lemma run_pass_app (fs1 fs2 : list (M unit)) (s : state) :
  run_pass (fs1 ++ fs2) s = run_pass fs2 (snd (run_pass fs1 s)).
Proof.
  rewrite !run_pass_run. cbn [snd]. rewrite fold_left_app. reflexivity.
Qed.

(** A function registered with [@updater] is run last in every pass,
    from the state the functions registered before it have left, whether
    they raised or not; the three updaters of the module are registered
    in the order [health], [number_of_users_without_contacts], [teams]. *)
Theorem updater_runs_last (api_url : string) (upstream : nat -> string -> reply)
    (repr : json -> string) (F : M unit) (registered : list (M unit))
    (s : state) :
  run_pass (updater F registered) s
  = (Return tt, guarded F (snd (run_pass registered s)))
  /\ updaters api_url upstream repr
     = updater (teams api_url upstream repr)
         (updater (number_of_users_without_contacts api_url upstream)
            (updater (health api_url upstream) [])).
Proof.
  split; [| reflexivity].
  unfold updater. rewrite run_pass_app. cbn [run_pass]. unfold bind.
  rewrite try_except_run. reflexivity.
Qed.

(** ** The further properties on the demo service *)

Lemma health_no_response_witness :
  let s' := snd (health Demo.api_url Demo.upstream_broken Demo.earlier) in
  Demo.upstream_broken (sent Demo.earlier) (Demo.api_url ++ "/") = NoResponse
  /\ fst (health Demo.api_url Demo.upstream_broken Demo.earlier)
     = Raise TransportError
  /\ ONCALL_HEALTH_STATUS (metrics s') = 1%Z.
Proof.
  cbv zeta. split; [reflexivity |].
  destruct (health_no_response Demo.api_url Demo.upstream_broken Demo.earlier
              eq_refl) as (H1 & H2 & _).
  split; [exact H1 |].
  exact (f_equal g_health_status H2).
Defined.

Lemma users_unusable_body_witness :
  let run :=
    number_of_users_without_contacts Demo.api_url Demo.upstream_broken in
  fst (run Demo.earlier) = Raise JSONDecodeError
  /\ gauges_of (metrics (snd (run Demo.earlier)))
     = gauges_of (metrics Demo.earlier).
Proof.
  exact (users_unusable_body Demo.api_url Demo.upstream_broken Demo.earlier
           (Response 200 None) JSONDecodeError eq_refl eq_refl eq_refl).
Defined.

Lemma users_partial_update_witness :
  let run :=
    number_of_users_without_contacts Demo.api_url Demo.upstream_bad_user in
  let s' := snd (run Demo.earlier) in
  users_loop Demo.users_bad (0, 0) = Err (KeyError "contacts")
  /\ fst (run Demo.earlier) = Raise (KeyError "contacts")
  /\ ONCALL_USERS_TOTAL (metrics s') = 2%Z
  /\ ONCALL_USERS_WITHOUT_CONTACTS_GAUGE (metrics s') = 4%Z
  /\ ONCALL_USERS_WITHOUT_PHONE_NUMBER (metrics s') = 5%Z.
Proof.
  cbv zeta. split; [reflexivity |].
  exact (users_partial_update Demo.api_url Demo.upstream_bad_user Demo.earlier
           (Demo.ok (JArr Demo.users_bad)) (JArr Demo.users_bad) 2
           Demo.users_bad (KeyError "contacts")
           eq_refl eq_refl eq_refl eq_refl eq_refl eq_refl).
Defined.

Lemma users_step_nameless_witness :
  users_step (JObj [("contacts", JObj [])]) (0, 0) = Err (KeyError "name")
  /\ users_step (JObj [("contacts", JObj [("sms", JStr "+1 555 0101")])]) (0, 0)
     = Ok (0, 0).
Proof.
  split.
  - exact (users_step_nameless [("contacts", JObj [])] [] 0 0 eq_refl eq_refl).
  - exact (users_step_nameless
             [("contacts", JObj [("sms", JStr "+1 555 0101")])]
             [("sms", JStr "+1 555 0101")] 0 0 eq_refl eq_refl).
Defined.

Lemma users_gauges_ordered_witness :
  let run := number_of_users_without_contacts Demo.api_url Demo.upstream in
  let m' := metrics (snd (run Demo.earlier)) in
  fst (run Demo.earlier) = Return tt
  /\ (0 <= ONCALL_USERS_WITHOUT_CONTACTS_GAUGE m'
      <= ONCALL_USERS_WITHOUT_PHONE_NUMBER m')%Z
  /\ (ONCALL_USERS_WITHOUT_PHONE_NUMBER m' <= ONCALL_USERS_TOTAL m')%Z.
Proof.
  cbv zeta. split; [reflexivity |].
  exact (users_gauges_ordered Demo.api_url Demo.upstream Demo.earlier
           (Demo.ok (JArr Demo.users)) eq_refl eq_refl eq_refl).
Defined.

Lemma teams_list_fetch_failed_witness :
  let run := teams Demo.api_url Demo.upstream_503 Demo.repr in
  status_code Demo.unavailable <> 200%Z
  /\ fst (run Demo.earlier) = Return tt
  /\ gauges_of (metrics (snd (run Demo.earlier)))
     = gauges_of (metrics Demo.earlier)
  /\ sent (snd (run Demo.earlier)) = 41.
Proof.
  cbv zeta. split; [discriminate |].
  exact (teams_list_fetch_failed Demo.api_url Demo.upstream_503 Demo.repr
           Demo.earlier Demo.unavailable eq_refl ltac:(discriminate)).
Defined.

Lemma slot_step_writes_ordered_pair_witness :
  let out := slot_step Demo.repr (JStr "a") Demo.summary_a "next"
               (true, false) startup in
  fst out = Return (true, true)
  /\ exists n u,
       rotation_series (metrics (snd out)) "a" "next"
       = (Some (Z.of_nat n), Some (Z.of_nat u))
       /\ u <= n
       /\ (true = true -> true = true)
       /\ (false = true -> true = true).
Proof.
  cbv zeta. split; [reflexivity |].
  exact (slot_step_writes_ordered_pair Demo.repr (JStr "a") Demo.summary_a
           "next" (true, false) (true, true) startup
           (snd (slot_step Demo.repr (JStr "a") Demo.summary_a "next"
                   (true, false) startup))
           eq_refl).
Defined.

Lemma teams_loop_stops_at_no_response_witness :
  let loop := teams_loop Demo.api_url Demo.upstream Demo.repr in
  Demo.upstream 1 "http://oncall:8080/api/v0/teams/z/summary" = NoResponse
  /\ loop [JStr "c"; JStr "z"; JStr "a"] (0, 0) startup
     = (Raise TransportError,
        requested NoResponse (snd (loop [JStr "c"] (0, 0) startup))).
Proof.
  cbv zeta. split; [reflexivity |].
  exact (teams_loop_stops_at_no_response Demo.api_url Demo.upstream Demo.repr
           [JStr "c"] (JStr "z") [JStr "a"] (0, 0) (0, 0) startup
           (snd (teams_loop Demo.api_url Demo.upstream Demo.repr
                   [JStr "c"] (0, 0) startup))
           eq_refl eq_refl).
Defined.

Lemma teams_raise_keeps_rollups_witness :
  let run := teams Demo.api_url Demo.upstream_broken Demo.repr in
  let m' := metrics (snd (run Demo.earlier)) in
  fst (run Demo.earlier) = Raise TypeError
  /\ ONCALL_TEAMS_UNDERSTAFFED m' = 2%Z
  /\ ONCALL_TEAMS_TOTAL_UNREACHABLE_BY_PHONE m' = 1%Z.
Proof.
  cbv zeta. split; [reflexivity |].
  exact (teams_raise_keeps_rollups Demo.api_url Demo.upstream_broken Demo.repr
           Demo.earlier TypeError eq_refl).
Defined.

Lemma teams_rollups_bounded_witness :
  let run := teams Demo.api_url Demo.upstream Demo.repr in
  let m' := metrics (snd (run Demo.earlier)) in
  fst (run Demo.earlier) = Return tt
  /\ (0 <= ONCALL_TEAMS_UNDERSTAFFED m' <= ONCALL_TEAMS_TOTAL m')%Z
  /\ (0 <= ONCALL_TEAMS_TOTAL_UNREACHABLE_BY_PHONE m'
      <= ONCALL_TEAMS_TOTAL m')%Z.
Proof.
  cbv zeta. split; [reflexivity |].
  exact (teams_rollups_bounded Demo.api_url Demo.upstream Demo.repr
           Demo.earlier (Demo.ok (JArr Demo.team_names))
           eq_refl eq_refl eq_refl).
Defined.

Lemma teams_spares_other_labels_witness :
  let run := teams Demo.api_url Demo.upstream Demo.repr in
  ~ In "retired" (map (str Demo.repr) Demo.team_names)
  /\ rotation_series (metrics (snd (run Demo.earlier))) "retired" "current"
     = rotation_series (metrics Demo.earlier) "retired" "current".
Proof.
  cbv zeta.
  assert (H : ~ In "retired" (map (str Demo.repr) Demo.team_names))
    by (simpl; intuition discriminate).
  split; [exact H |].
  exact (teams_spares_other_labels Demo.api_url Demo.upstream Demo.repr
           Demo.earlier (Demo.ok (JArr Demo.team_names)) Demo.team_names
           "retired" "current" eq_refl eq_refl H).
Defined.

Lemma series_stay_consistent_witness :
  series_consistent startup
  /\ series_consistent
       (snd (main_loop Demo.api_url Demo.upstream Demo.repr 2 startup)).
Proof.
  assert (H : series_consistent startup).
  { intros t e. unfold rotation_series. cbn [metrics startup
      ONCALL_TEAM_ROTATION_STAFF_COUNT
      ONCALL_TEAM_ROTATION_UNREACHABLE_BY_PHONE_COUNT].
    rewrite lookup_empty. exact I. }
  split; [exact H |].
  exact (series_stay_consistent Demo.api_url Demo.upstream Demo.repr 2
           startup H).
Defined.

Lemma gauges_stay_in_range_witness :
  in_range startup
  /\ in_range (snd (main_loop Demo.api_url Demo.upstream Demo.repr 2 startup)).
Proof.
  assert (H : in_range startup).
  { unfold in_range. cbn. repeat split; auto; lia. }
  split; [exact H |].
  exact (gauges_stay_in_range Demo.api_url Demo.upstream Demo.repr 2
           startup H).
Defined.
